(** * AgentPilot: the agent execution runtime

    A shallow embedding of the core of [agentpilot/app]: the capability
    registry ([core/registry.py]), the plugins shipped with it
    ([connectors/mock_email.py], [actions/email_action.py],
    [actions/log_action.py], [core/bootstrap.py]), the invoice agent
    ([agents/invoice_email_agent.py]), the dispatcher ([core/runtime.py]),
    the executor ([core/executor.py]) and the scheduler
    ([scheduler/loop.py]).

    Conventions of the model.
    - Python values are the JSON-like fragment the code handles: [None],
      booleans, integers, strings, lists and dictionaries with string keys.
      A dictionary is an association list in insertion order, as Python
      keeps it.
    - A Python [str] is a [string] with one character for each code point,
      so the model covers the text of code points below 256 (Latin-1), on
      which [len] and [str.lower] are the ones given here.
    - A raising call returns [Raise e]; every exception carries whether its
      class derives from [Exception], because [except Exception] asks.
    - Coroutines are run to completion one at a time: an [await] is a call.
    - The list a connector returns and the messages in it are objects that
      plugin code may go on changing: the program reads them in the state
      of the outside world at the moment the source reads them.
    - [datetime.now] reads a clock that is a parameter of the model, and
      [json.dumps] and [repr] are parameters too (they are the interpreter's,
      not this program's). *)

From Stdlib Require Import Ascii String ZArith Lia.
From stdpp Require Import base option list strings gmap pretty.

Local Open Scope string_scope.
Local Open Scope Z_scope.
Local Open Scope list_scope.
Local Set Warnings "-register-all".

(** ** Python values *)

Inductive pyval : Type :=
| VNone
| VBool (b : bool)
| VInt (n : Z)
| VStr (s : string)
| VList (l : list pyval)
| VDict (d : list (string * pyval)).

Abbreviation dict := (list (string * pyval)).

(** [type(v).__name__] *)
Definition py_type_name (v : pyval) : string :=
  match v with
  | VNone => "NoneType"
  | VBool _ => "bool"
  | VInt _ => "int"
  | VStr _ => "str"
  | VList _ => "list"
  | VDict _ => "dict"
  end.

(** [d.get(key, default)] *)
Fixpoint dict_get (d : dict) (key : string) (default : pyval) : pyval :=
  match d with
  | [] => default
  | (k, v) :: d' => if String.eqb k key then v else dict_get d' key default
  end.

(** [str(n)] for an integer. *)
Definition str_of_int (n : Z) : string := pretty n.

(** ** Strings: [lower] and [in] *)

(** The lower-case form of a character: the upper-case letters are [A] to
    [Z] and, in Latin-1, the code points 192 to 222 but for the
    multiplication sign 215; each is 32 below its lower-case form. *)
Definition ascii_lower (c : ascii) : ascii :=
  let n := nat_of_ascii c in
  if (((65 <=? n) && (n <=? 90))
      || ((192 <=? n) && (n <=? 222) && negb (n =? 215)))%nat%bool
  then ascii_of_nat (n + 32)
  else c.

Fixpoint lower (s : string) : string :=
  match s with
  | EmptyString => EmptyString
  | String c s' => String (ascii_lower c) (lower s')
  end.

Fixpoint starts_with (pat s : string) : bool :=
  match pat, s with
  | EmptyString, _ => true
  | String _ _, EmptyString => false
  | String a pat', String b s' => if Ascii.eqb a b then starts_with pat' s' else false
  end.

(** [pat in s] for two strings. *)
Fixpoint str_contains (pat s : string) : bool :=
  if starts_with pat s then true
  else match s with
       | EmptyString => false
       | String _ s' => str_contains pat s'
       end.

(** ** Exceptions and results *)

Inductive exn : Type :=
| KeyError (key : pyval)
| AttributeError (msg : string)
| TypeError (msg : string)
| Raised (cls : string) (msg : string) (is_exception : bool).

(** [isinstance(exc, Exception)]: the three built-in classes derive from
    [Exception]; a class raised by a plugin says so itself
    ([KeyboardInterrupt], [SystemExit] and [asyncio.CancelledError] derive
    from [BaseException] only). *)
Definition exn_is_Exception (exc : exn) : bool :=
  match exc with
  | KeyError _ | AttributeError _ | TypeError _ => true
  | Raised _ _ b => b
  end.

(** [type(exc).__name__] *)
Definition exn_type_name (exc : exn) : string :=
  match exc with
  | KeyError _ => "KeyError"
  | AttributeError _ => "AttributeError"
  | TypeError _ => "TypeError"
  | Raised cls _ _ => cls
  end.

Inductive res (A : Type) : Type :=
| Ok (a : A)
| Raise (exc : exn).
Arguments Ok {A} a.
Arguments Raise {A} exc.

Definition is_Ok {A} (r : res A) : bool :=
  match r with Ok _ => true | Raise _ => false end.

(** [v.lower()]: only a [str] has the method. *)
Definition py_lower (v : pyval) : res string :=
  match v with
  | VStr s => Ok (lower s)
  | _ => Raise (AttributeError
                  ("'" +:+ py_type_name v +:+ "' object has no attribute 'lower'"))
  end.

(** [len(v)] *)
Definition py_len (v : pyval) : res Z :=
  match v with
  | VStr s => Ok (Z.of_nat (String.length s))
  | VList l => Ok (Z.of_nat (length l))
  | VDict d => Ok (Z.of_nat (length d))
  | _ => Raise (TypeError
                  ("object of type '" +:+ py_type_name v +:+ "' has no len()"))
  end.

(** [d[key]] on a dictionary whose keys are strings, for any key value:
    a list or a dictionary is unhashable, any other value is just absent. *)
Definition subscript {V} (d : gmap string V) (key : pyval) : res V :=
  match key with
  | VStr s => match d !! s with
              | Some v => Ok v
              | None => Raise (KeyError key)
              end
  | VList _ | VDict _ =>
      Raise (TypeError ("unhashable type: '" +:+ py_type_name key +:+ "'"))
  | _ => Raise (KeyError key)
  end.

(** ** The stored records ([db/models.py])

    The primary key of a row is its key in the table; [created_at],
    [updated_at] and the relationship attributes play no part in the
    runtime and are left out. Times are integers (microseconds). *)

Module Agent.
Record t := {
  id : Z;
  name : string;
  kind : string;
  config : dict;
  schedule_seconds : Z;
  enabled : bool }.
End Agent.

Module Run.
Record t := {
  agent_id : Z;
  status : string;
  started_at : option Z;
  finished_at : option Z;
  logs : string }.

Definition with_status (s : string) (r : t) : t :=
  {| agent_id := agent_id r; status := s; started_at := started_at r;
     finished_at := finished_at r; logs := logs r |}.
Definition with_started_at (x : option Z) (r : t) : t :=
  {| agent_id := agent_id r; status := status r; started_at := x;
     finished_at := finished_at r; logs := logs r |}.
Definition with_finished_at (x : option Z) (r : t) : t :=
  {| agent_id := agent_id r; status := status r; started_at := started_at r;
     finished_at := x; logs := logs r |}.
Definition with_logs (s : string) (r : t) : t :=
  {| agent_id := agent_id r; status := status r; started_at := started_at r;
     finished_at := finished_at r; logs := s |}.
End Run.

(** What the session sent to the store, in order: a flush writes inside the
    open transaction, a commit makes the row durable. *)
Inductive db_event : Type :=
| Flushed (run_id : Z) (r : Run.t)
| Committed (run_id : Z) (r : Run.t).

(** One invocation [await action.run(...)] of the action resolved under
    [name]. *)
Inductive call : Type :=
| ActionRun (name : pyval) (kwargs : dict).

(** ** Plugins and the capability registry ([core/registry.py]) *)

Section Runtime.

(** The state of the outside world the plugins act on. *)
Context {E : Type}.

(** The interpreter's [repr] and [json.dumps], and the readings of the
    clock: [clock n] is what the [n]-th call of [datetime.now] returns. *)
Variable py_repr : pyval -> string.
Variable json_dumps : pyval -> res string.
Variable clock : nat -> Z.

(** A call of plugin code: it may change the outside world and may raise. *)
Definition P (A : Type) : Type := E -> res A * E.

(** A mutable object that plugin code hands out: what it holds in each
    state of the outside world. An object that nothing changes holds the
    same in every state. *)
Definition obj (A : Type) : Type := E -> A.

(** [fetch] returns a list object of message objects. *)
Record Connector := { fetch : dict -> P (obj (list (obj dict))) }.
Record Action := { run : dict -> P pyval }.

Record RegisteredConnector := {
  rc_name : string;
  rc_factory : P Connector }.

Record RegisteredAction := {
  ra_name : string;
  ra_factory : P Action }.

Record Registry := {
  _connectors : gmap string RegisteredConnector;
  _actions : gmap string RegisteredAction }.

(** [Registry.__init__] *)
Definition Registry_init : Registry :=
  {| _connectors := ∅; _actions := ∅ |}.

Definition register_connector (self : Registry) (name : string)
    (factory : P Connector) : Registry :=
  {| _connectors :=
       <[name := {| rc_name := name; rc_factory := factory |}]> (_connectors self);
     _actions := _actions self |}.

Definition register_action (self : Registry) (name : string)
    (factory : P Action) : Registry :=
  {| _connectors := _connectors self;
     _actions :=
       <[name := {| ra_name := name; ra_factory := factory |}]> (_actions self) |}.

(** [self._connectors[name].factory()] *)
Definition connector (self : Registry) (name : pyval) : P Connector :=
  fun e =>
    match subscript (_connectors self) name with
    | Ok rc => rc_factory rc e
    | Raise exc => (Raise exc, e)
    end.

(** [self._actions[name].factory()] *)
Definition action (self : Registry) (name : pyval) : P Action :=
  fun e =>
    match subscript (_actions self) name with
    | Ok ra => ra_factory ra e
    | Raise exc => (Raise exc, e)
    end.

(** ** The shipped plugins *)

(** [connectors/mock_email.py]: [messages or []] is [[]] for [None], and
    [list(self._messages)] is a new list at every fetch, which no plugin
    holds; the messages the connector is built over are values. *)
Definition MockEmailConnector (messages : option (list dict)) : Connector :=
  {| fetch := fun _ e =>
       (Ok (fun _ => map (fun m _ => m) (default [] messages)), e) |}.

(** [actions/email_action.py] *)
Definition EmailAction : Action :=
  {| run := fun kwargs e =>
       let to := dict_get kwargs "to" VNone in
       let subject := dict_get kwargs "subject" (VStr "") in
       let body := dict_get kwargs "body" (VStr "") in
       match py_len body with
       | Ok n => (Ok (VDict [("sent", VBool true); ("to", to);
                             ("subject", subject); ("body_len", VInt n)]), e)
       | Raise exc => (Raise exc, e)
       end |}.

(** [actions/log_action.py] *)
Definition LogAction : Action :=
  {| run := fun kwargs e => (Ok (VDict [("logged", VDict kwargs)]), e) |}.

(** [core/bootstrap.py] *)
Definition register_plugins (registry : Registry) : Registry :=
  let registry :=
    register_connector registry "mock_email" (fun e => (Ok (MockEmailConnector None), e)) in
  let registry := register_action registry "email" (fun e => (Ok EmailAction, e)) in
  register_action registry "log" (fun e => (Ok LogAction, e)).

(** ** The state of the process

    The registry is the module-level [registry] object; the two tables are
    the committed contents of the store; [w_calls] and [w_events] are
    histories kept for the statements only. *)

Record world := {
  w_registry : Registry;
  w_ext : E;
  w_calls : list call;
  w_agents : gmap Z Agent.t;
  w_runs : gmap Z Run.t;
  w_now_calls : nat;
  w_events : list db_event }.

Definition with_ext (e : E) (w : world) : world :=
  {| w_registry := w_registry w; w_ext := e; w_calls := w_calls w;
     w_agents := w_agents w; w_runs := w_runs w;
     w_now_calls := w_now_calls w; w_events := w_events w |}.

Definition with_calls (c : list call) (w : world) : world :=
  {| w_registry := w_registry w; w_ext := w_ext w; w_calls := c;
     w_agents := w_agents w; w_runs := w_runs w;
     w_now_calls := w_now_calls w; w_events := w_events w |}.

Definition with_runs (r : gmap Z Run.t) (w : world) : world :=
  {| w_registry := w_registry w; w_ext := w_ext w; w_calls := w_calls w;
     w_agents := w_agents w; w_runs := r;
     w_now_calls := w_now_calls w; w_events := w_events w |}.

Definition with_now_calls (n : nat) (w : world) : world :=
  {| w_registry := w_registry w; w_ext := w_ext w; w_calls := w_calls w;
     w_agents := w_agents w; w_runs := w_runs w;
     w_now_calls := n; w_events := w_events w |}.

Definition with_events (l : list db_event) (w : world) : world :=
  {| w_registry := w_registry w; w_ext := w_ext w; w_calls := w_calls w;
     w_agents := w_agents w; w_runs := w_runs w;
     w_now_calls := w_now_calls w; w_events := l |}.

(** A computation of the program: a result or an exception, and the state
    it leaves. *)
Definition M (A : Type) : Type := world -> res A * world.

Definition ret {A} (a : A) : M A := fun w => (Ok a, w).
Definition bind {A B} (m : M A) (k : A -> M B) : M B :=
  fun w =>
    match m w with
    | (Ok a, w') => k a w'
    | (Raise exc, w') => (Raise exc, w')
    end.

Notation "'let*' x ':=' m 'in' k" := (bind m (fun x => k))
  (at level 10, x name, m at level 100, k at level 200).

(** A plugin call made by the program. *)
Definition plugin {A} (p : P A) : M A :=
  fun w => let '(r, e) := p (w_ext w) in (r, with_ext e w).

(** A pure step that may raise. *)
Definition lift {A} (r : res A) : M A := fun w => (r, w).

(** [await action.run(...)], noted in the history of calls. *)
Definition call_action (name : pyval) (act : Action) (kwargs : dict) : M pyval :=
  fun w => plugin (run act kwargs) (with_calls (w_calls w ++ [ActionRun name kwargs]) w).

(** ** The invoice agent ([agents/invoice_email_agent.py]) *)

(** [str(v)], as an f-string formats [v]: a [str] is itself, every other
    value of the fragment prints as its [repr]. *)
Definition py_str (v : pyval) : string :=
  match v with
  | VStr s => s
  | _ => py_repr v
  end.

Record InvoiceEmailAgent := { self_config : dict }.

Definition InvoiceEmailAgent_kind : string := "invoice_email".

(** [__init__] *)
Definition InvoiceEmailAgent_init (config : dict) : InvoiceEmailAgent :=
  {| self_config := config |}.

(** The condition of the comprehension:
    ["invoice" in m.get("subject", "").lower()]. *)
Definition is_invoice (m : dict) : res bool :=
  match py_lower (dict_get m "subject" (VStr "")) with
  | Ok s => Ok (str_contains "invoice" s)
  | Raise exc => Raise exc
  end.

(** [[m for m in messages if ...]], in the state [e] of the outside
    world: the first raising test ends it. *)
Fixpoint filter_invoices (e : E) (messages : list (obj dict))
    : res (list (obj dict)) :=
  match messages with
  | [] => Ok []
  | m :: rest =>
      match is_invoice (m e) with
      | Raise exc => Raise exc
      | Ok b =>
          match filter_invoices e rest with
          | Raise exc => Raise exc
          | Ok kept => Ok (if b then m :: kept else kept)
          end
      end
  end.

(** The keyword arguments of one forwarding call. *)
Definition forward_kwargs (config inv : dict) : dict :=
  [("to", dict_get config "accounting_email" VNone);
   ("subject", VStr ("FWD: " +:+ py_str (dict_get inv "subject" (VStr ""))));
   ("body", dict_get inv "body" (VStr ""))].

(** The [for inv in invoices] loop; [results] is the list built so far.
    The arguments of a call are read off the invoice when its turn comes. *)
Fixpoint forward_all (action_name : pyval) (act : Action) (config : dict)
    (invoices : list (obj dict)) (results : list pyval) : M (list pyval) :=
  match invoices with
  | [] => ret results
  | inv :: rest =>
      let* r := (fun w =>
                   call_action action_name act
                     (forward_kwargs config (inv (w_ext w))) w) in
      forward_all action_name act config rest (results ++ [r])
  end.

(** [InvoiceEmailAgent.run]. [len(messages)] is taken when the result is
    built, after the loop, on the list object the connector returned. *)
Definition InvoiceEmailAgent_run (self : InvoiceEmailAgent) : M pyval :=
  let connector_name := dict_get (self_config self) "connector" (VStr "mock_email") in
  let* email_connector := (fun w => plugin (connector (w_registry w) connector_name) w) in
  let* messages := plugin (fetch email_connector []) in
  let* invoices :=
    (fun w => lift (filter_invoices (w_ext w) (messages (w_ext w))) w) in
  let action_name := dict_get (self_config self) "action" (VStr "email") in
  let* act := (fun w => plugin (action (w_registry w) action_name) w) in
  let* results := forward_all action_name act (self_config self) invoices [] in
  fun w =>
    ret (VDict [("inputs", VInt (Z.of_nat (length (messages (w_ext w)))));
                ("invoices", VInt (Z.of_nat (length invoices)));
                ("sent", VInt (Z.of_nat (length results)))]) w.

(** ** The dispatcher ([core/runtime.py]) *)

(** An agent object: what its [run] method does. A class is its
    constructor, from a configuration to an object. *)
Record AgentObject := { agent_run : M pyval }.

Definition InvoiceEmailAgent_cls (config : dict) : AgentObject :=
  {| agent_run := InvoiceEmailAgent_run (InvoiceEmailAgent_init config) |}.

Definition AGENT_KIND_TO_CLASS : gmap string (dict -> AgentObject) :=
  {[ InvoiceEmailAgent_kind := InvoiceEmailAgent_cls ]}.

(** [run_agent], over any table of kinds. *)
Definition run_agent_in (table : gmap string (dict -> AgentObject))
    (kind : string) (config : dict) : M pyval :=
  let* agent_cls := lift (subscript table (VStr kind)) in
  let agent := agent_cls config in
  agent_run agent.

Definition run_agent : string -> dict -> M pyval :=
  run_agent_in AGENT_KIND_TO_CLASS.

(** ** The executor ([core/executor.py]) *)

(** [str(exc)]: a [KeyError] prints the [repr] of its key. *)
Definition exn_str (exc : exn) : string :=
  match exc with
  | KeyError key => py_repr key
  | AttributeError msg | TypeError msg | Raised _ msg _ => msg
  end.

(** [datetime.now(timezone.utc)] *)
Definition now (w : world) : Z * world :=
  (clock (w_now_calls w), with_now_calls (S (w_now_calls w)) w).

(** The primary key the store gives a new row of [runs]: one more than the
    largest key in use. *)
Definition fresh_run_id (runs : gmap Z Run.t) : Z :=
  1 + map_fold (fun k _ acc => Z.max k acc) 0 runs.

(** Modelled from the spec: the session that [AsyncSessionLocal] opens
    ([db/session.py] is not among the sources), here for
    [session.add(run); await session.flush()]: the new record is persisted
    at once, inside the transaction, and gets its key. *)
Definition session_add_flush (run : Run.t) (w : world) : Z * world :=
  let run_id := fresh_run_id (w_runs w) in
  (run_id, with_events (w_events w ++ [Flushed run_id run]) w).

(** Modelled from the spec: the same session, for [await session.flush()]
    on a record that is in the table already: the update is persisted at
    once, inside the transaction. *)
Definition session_flush (run_id : Z) (run : Run.t) (w : world) : world :=
  with_events (w_events w ++ [Flushed run_id run]) w.

(** Modelled from the spec: the same session, for [await session.commit()]:
    the final state of the record becomes the row of the table. *)
Definition session_commit (run_id : Z) (run : Run.t) (w : world) : world :=
  with_events (w_events w ++ [Committed run_id run])
    (with_runs (<[run_id := run]> (w_runs w)) w).

(** The handler [except Exception as exc]: it takes the exceptions whose
    class derives from [Exception] and leaves the record alone for the
    others; the exception goes on in both cases ([raise]). *)
Definition except_Exception (exc : exn) (run : Run.t) : Run.t :=
  if exn_is_Exception exc
  then Run.with_logs (exn_type_name exc +:+ ": " +:+ exn_str exc)
         (Run.with_status "error" run)
  else run.

(** The [try] block with its handler: the outcome, and the record as the
    block leaves it. *)
Definition try_run_agent (agent : Agent.t) (run : Run.t) (w : world)
    : res pyval * Run.t * world :=
  match run_agent (Agent.kind agent) (Agent.config agent) w with
  | (Ok result, w') =>
      let run := Run.with_status "success" run in
      match json_dumps result with
      | Ok text => (Ok result, Run.with_logs text run, w')
      | Raise exc => (Raise exc, except_Exception exc run, w')
      end
  | (Raise exc, w') => (Raise exc, except_Exception exc run, w')
  end.

(** The [finally] block. *)
Definition finally_commit (run_id : Z) (out : res pyval * Run.t * world)
    : res pyval * world :=
  let '(r, run, w) := out in
  let '(t, w) := now w in
  let run := Run.with_finished_at (Some t) run in
  (r, session_commit run_id run w).

Definition not_found (what : string) (n : Z) : pyval :=
  VDict [("error", VStr (what +:+ " " +:+ str_of_int n +:+ " not found"))].

(** [session.get(Agent, agent_id)] is the lookup in the table; a new [Run]
    has no [finished_at] and the column default for its [logs]. *)
Definition execute_agent_by_id (agent_id : Z) : M pyval :=
  fun w =>
    match w_agents w !! agent_id with
    | None => (Ok (not_found "Agent" agent_id), w)
    | Some agent =>
        let '(t, w) := now w in
        let run := {| Run.agent_id := Agent.id agent;
                      Run.status := "running";
                      Run.started_at := Some t;
                      Run.finished_at := None;
                      Run.logs := "" |} in
        let '(run_id, w) := session_add_flush run w in
        finally_commit run_id (try_run_agent agent run w)
    end.

Definition execute_run (run_id : Z) : M pyval :=
  fun w =>
    match w_runs w !! run_id with
    | None => (Ok (not_found "Run" run_id), w)
    | Some run =>
        match w_agents w !! Run.agent_id run with
        | None => (Ok (not_found "Agent" (Run.agent_id run)), w)
        | Some agent =>
            let run := Run.with_status "running" run in
            let '(t, w) := now w in
            let run := Run.with_started_at (Some t) run in
            let w := session_flush run_id run w in
            finally_commit run_id (try_run_agent agent run w)
        end
    end.

End Runtime.

(** ** The scheduler ([scheduler/loop.py])

    [AsyncIOScheduler] and [IntervalTrigger] are APScheduler's. The model
    keeps what [add_or_update_job] can observe of the scheduler: before
    [start] it holds the jobs it was given in a list of pending jobs, in
    the order they came and without looking at their ids; once running it
    holds them in its job store, where an id is taken once. The callable
    of a job is [lambda: execute_agent_by_id(agent_id)], kept as its
    [agent_id]. The constructor of the trigger is a parameter: the library
    builds a trigger from the seconds it is given, or raises. An operation
    returns its outcome and the scheduler as it leaves it, also when it
    raises. The firing of the timers in time is not part of the model. *)

Module Sched.
Section Triggers.

Context {Trigger : Type}.

(** [IntervalTrigger(seconds=seconds)] *)
Variable IntervalTrigger : Z -> res Trigger.

Record Job := {
  job_id : string;
  job_agent_id : Z;
  trigger : Trigger }.

Record AsyncIOScheduler := {
  running : bool;
  _pending_jobs : list (Job * bool);
  _jobstore : list Job }.

Definition has_id (id : string) (j : Job) : bool := String.eqb (job_id j) id.

Definition JobLookupError (id : string) : exn :=
  Raised "JobLookupError" ("No job by the id of " +:+ id +:+ " was found") true.

Definition ConflictingIdError (id : string) : exn :=
  Raised "ConflictingIdError"
    ("Job identifier (" +:+ id +:+ ") conflicts with an existing job") true.

Definition SchedulerAlreadyRunningError : exn :=
  Raised "SchedulerAlreadyRunningError" "Scheduler is already running" true.

(** [AsyncIOScheduler()] *)
Definition AsyncIOScheduler_init : AsyncIOScheduler :=
  {| running := false; _pending_jobs := []; _jobstore := [] |}.

(** [scheduler.get_job(job_id)]: the job, or [None]. *)
Definition get_job (s : AsyncIOScheduler) (id : string) : option Job :=
  if running s
  then List.find (has_id id) (_jobstore s)
  else List.find (has_id id) (map fst (_pending_jobs s)).

(** Delete the first entry a test accepts; [None] when there is none. *)
Fixpoint remove_first {A} (f : A -> bool) (l : list A) : option (list A) :=
  match l with
  | [] => None
  | x :: l' => if f x then Some l'
               else match remove_first f l' with
                    | Some r => Some (x :: r)
                    | None => None
                    end
  end.

(** [scheduler.remove_job(job_id)] *)
Definition remove_job (s : AsyncIOScheduler) (id : string)
    : res unit * AsyncIOScheduler :=
  if running s
  then match remove_first (has_id id) (_jobstore s) with
       | Some store => (Ok tt, {| running := true;
                                  _pending_jobs := _pending_jobs s;
                                  _jobstore := store |})
       | None => (Raise (JobLookupError id), s)
       end
  else match remove_first (fun p => has_id id (fst p)) (_pending_jobs s) with
       | Some pending => (Ok tt, {| running := false;
                                    _pending_jobs := pending;
                                    _jobstore := _jobstore s |})
       | None => (Raise (JobLookupError id), s)
       end.

(** Put [job] where the stored job of its id is. *)
Fixpoint update_job (store : list Job) (job : Job) : list Job :=
  match store with
  | [] => []
  | j :: store' => if has_id (job_id job) j then job :: store'
                   else j :: update_job store' job
  end.

(** The job store takes a job: a taken id is a conflict, which
    [replace_existing] turns into an update. *)
Definition real_add_job (store : list Job) (job : Job) (replace_existing : bool)
    : res (list Job) :=
  match List.find (has_id (job_id job)) store with
  | None => Ok (store ++ [job])
  | Some _ => if replace_existing then Ok (update_job store job)
              else Raise (ConflictingIdError (job_id job))
  end.

(** [scheduler.add_job(func, trigger=..., id=..., replace_existing=...)],
    once its arguments are there. *)
Definition add_job (s : AsyncIOScheduler) (job : Job) (replace_existing : bool)
    : res unit * AsyncIOScheduler :=
  if running s
  then match real_add_job (_jobstore s) job replace_existing with
       | Ok store => (Ok tt, {| running := true;
                                _pending_jobs := _pending_jobs s;
                                _jobstore := store |})
       | Raise exc => (Raise exc, s)
       end
  else (Ok tt, {| running := false;
                  _pending_jobs := _pending_jobs s ++ [(job, replace_existing)];
                  _jobstore := _jobstore s |}).

(** The pending jobs go to the store, in order, up to the first one the
    store refuses. *)
Fixpoint add_pending (store : list Job) (pending : list (Job * bool))
    : res unit * list Job :=
  match pending with
  | [] => (Ok tt, store)
  | (job, replace_existing) :: rest =>
      match real_add_job store job replace_existing with
      | Ok store' => add_pending store' rest
      | Raise exc => (Raise exc, store)
      end
  end.

(** [scheduler.start()] *)
Definition scheduler_start (s : AsyncIOScheduler) : res unit * AsyncIOScheduler :=
  if running s then (Raise SchedulerAlreadyRunningError, s)
  else match add_pending (_jobstore s) (_pending_jobs s) with
       | (Ok _, store) =>
           (Ok tt, {| running := true; _pending_jobs := []; _jobstore := store |})
       | (Raise exc, store) =>
           (Raise exc, {| running := false; _pending_jobs := _pending_jobs s;
                          _jobstore := store |})
       end.

Record AgentScheduler := { scheduler : AsyncIOScheduler }.

(** [AgentScheduler.__init__] *)
Definition AgentScheduler_init : AgentScheduler :=
  {| scheduler := AsyncIOScheduler_init |}.

(** [f"agent-{agent_id}"] *)
Definition job_id_of (agent_id : Z) : string := "agent-" +:+ str_of_int agent_id.

(** [if self.scheduler.get_job(job_id): self.scheduler.remove_job(job_id)] *)
Definition remove_existing (s : AsyncIOScheduler) (id : string)
    : res unit * AsyncIOScheduler :=
  match get_job s id with
  | Some _ => remove_job s id
  | None => (Ok tt, s)
  end.

(** [add_or_update_job]: the trigger is built as an argument of [add_job],
    after the job of the id, if any, has been removed. *)
Definition add_or_update_job (self : AgentScheduler) (agent_id seconds : Z)
    : res unit * AgentScheduler :=
  let job_id := job_id_of agent_id in
  match remove_existing (scheduler self) job_id with
  | (Raise exc, s) => (Raise exc, {| scheduler := s |})
  | (Ok _, s) =>
      match IntervalTrigger seconds with
      | Raise exc => (Raise exc, {| scheduler := s |})
      | Ok trig =>
          let '(r, s') :=
            add_job s {| job_id := job_id; job_agent_id := agent_id;
                         trigger := trig |} true in
          (r, {| scheduler := s' |})
      end
  end.

(** [AgentScheduler.start] *)
Definition start (self : AgentScheduler) : res unit * AgentScheduler :=
  let '(r, s) := scheduler_start (scheduler self) in (r, {| scheduler := s |}).

(** The timers the scheduler holds: the pending jobs and the stored ones. *)
Definition timers (self : AgentScheduler) : list Job :=
  map fst (_pending_jobs (scheduler self)) ++ _jobstore (scheduler self).

(** The timers of one agent. *)
Definition timers_of (self : AgentScheduler) (agent_id : Z) : list Job :=
  List.filter (has_id (job_id_of agent_id)) (timers self).

(** The rows [select(Agent).where(Agent.enabled == True)] returns, in the
    order the table lists them. *)
Definition enabled_agents (agents : gmap Z Agent.t) : list Agent.t :=
  List.filter Agent.enabled (map snd (map_to_list agents)).

(** The loop of [load_jobs]: [add_or_update_job] for each agent in turn,
    up to the first call that raises. *)
Fixpoint add_jobs (self : AgentScheduler) (agents : list Agent.t)
    : res unit * AgentScheduler :=
  match agents with
  | [] => (Ok tt, self)
  | agent :: rest =>
      match add_or_update_job self (Agent.id agent)
              (Agent.schedule_seconds agent) with
      | (Ok _, self') => add_jobs self' rest
      | (Raise exc, self') => (Raise exc, self')
      end
  end.

(** [AgentScheduler.load_jobs], over the stored agents. *)
Definition load_jobs (self : AgentScheduler) (agents : gmap Z Agent.t)
    : res unit * AgentScheduler :=
  add_jobs self (enabled_agents agents).

End Triggers.
End Sched.

(** ** Notions the statements use *)


(** The subject of a message when it is a string. *)
Definition subject_of (m : dict) : option string :=
  match dict_get m "subject" (VStr "") with
  | VStr s => Some s
  | _ => None
  end.

(** A message whose subject mentions an invoice. *)
Definition mentions_invoice (m : dict) : bool :=
  match subject_of m with
  | Some s => str_contains "invoice" (lower s)
  | None => false
  end.

(** The call that forwards [m], as the specification words it. *)
Definition forwarding_call (action_name : pyval) (config m : dict) : call :=
  ActionRun action_name
    [("to", dict_get config "accounting_email" VNone);
     ("subject", VStr ("FWD: " +:+ default "" (subject_of m)));
     ("body", dict_get m "body" (VStr ""))].

(** The result document of the invoice agent. *)
Definition counts (inputs invoices sent : Z) : pyval :=
  VDict [("inputs", VInt inputs); ("invoices", VInt invoices); ("sent", VInt sent)].

Definition terminal (status : string) : Prop :=
  status = "success" \/ status = "error".

(** A record that has reached a terminal status has both of its times,
    in order. *)
Definition run_ok (r : Run.t) : Prop :=
  terminal (Run.status r) ->
  exists t0 t1 : Z,
    Run.started_at r = Some t0 /\ Run.finished_at r = Some t1 /\ t0 <= t1.

(** What plugin code cannot touch: the registry, the two tables, the
    clock and the history of the store. *)
Definition same_store {E} (w w' : @world E) : Prop :=
  w_registry w' = w_registry w /\ w_agents w' = w_agents w /\
  w_runs w' = w_runs w /\ w_now_calls w' = w_now_calls w /\
  w_events w' = w_events w.

(** An execution that started in [w] with the clock read [n] times has
    closed its run [run_id] in [w']: the store has seen the record twice,
    flushed as running and then committed once in its final state, which
    is the row of the table now and carries both times, in order. *)
Definition closes_run {E} (clock : nat -> Z) (w w' : @world E) (run_id : Z)
    : Prop :=
  exists flushed final : Run.t,
    w_events w' = w_events w ++ [Flushed run_id flushed; Committed run_id final] /\
    w_runs w' = <[run_id := final]> (w_runs w) /\
    Run.status flushed = "running" /\
    Run.started_at final = Some (clock (w_now_calls w)) /\
    Run.finished_at final = Some (clock (S (w_now_calls w))) /\
    clock (w_now_calls w) <= clock (S (w_now_calls w)).

(** The timer [add_or_update_job] installs, with the trigger the library
    built. *)
Definition timer {Trigger} (agent_id : Z) (trig : Trigger) : Sched.Job :=
  {| Sched.job_id := Sched.job_id_of agent_id;
     Sched.job_agent_id := agent_id;
     Sched.trigger := trig |}.

(** A scheduler in order: no id has two timers, and the timers are pending
    while the scheduler is stopped and stored while it runs. *)
Definition sched_wf {Trigger} (self : @Sched.AgentScheduler Trigger) : Prop :=
  (forall id : string,
     (length (List.filter (Sched.has_id id) (Sched.timers self)) <= 1)%nat) /\
  (if Sched.running (Sched.scheduler self)
   then Sched._pending_jobs (Sched.scheduler self) = []
   else Sched._jobstore (Sched.scheduler self) = []).

(** The body of a message, as [inv.get("body", "")] gives it, has a
    length: it is absent, or a string, a list or a dictionary. *)
Definition body_has_len (m : dict) : bool :=
  is_Ok (py_len (dict_get m "body" (VStr ""))).

(** The timers an agent of the table is due: one when it is enabled, with
    the trigger of its [schedule_seconds]. *)
Definition due_timers {Trigger} (IntervalTrigger : Z -> res Trigger)
    (agents : gmap Z Agent.t) (agent_id : Z) : list Sched.Job :=
  match agents !! agent_id with
  | Some agent =>
      if Agent.enabled agent
      then match IntervalTrigger (Agent.schedule_seconds agent) with
           | Ok trig => [timer agent_id trig]
           | Raise _ => []
           end
      else []
  | None => []
  end.

(** The enabled agents of the table have intervals that are positive and
    that the library makes a trigger of. *)
Definition schedulable {Trigger} (IntervalTrigger : Z -> res Trigger)
    (agents : gmap Z Agent.t) : Prop :=
  forall (k : Z) (agent : Agent.t),
    agents !! k = Some agent -> Agent.enabled agent = true ->
    0 < Agent.schedule_seconds agent /\
    is_Ok (IntervalTrigger (Agent.schedule_seconds agent)) = true.

Section Forwarding.
Context {E : Type}.
Variable py_repr : pyval -> string.

(** The action is run on each invoice in turn and returns each time; every
    invoice is, when its turn comes, as it was in the state [e0] in which
    the messages were filtered. [forwarded act config e0 e invoices e']
    takes the outside world from [e] to [e']. *)
Inductive forwarded (act : @Action E) (config : dict) (e0 : E)
    : E -> list (@obj E dict) -> E -> Prop :=
| forwarded_nil (e : E) : forwarded act config e0 e [] e
| forwarded_cons (e e1 e' : E) (inv : obj dict) (rest : list (obj dict))
    (r : pyval) :
    inv e = inv e0 ->
    run act (forward_kwargs py_repr config (inv e0)) e = (Ok r, e1) ->
    forwarded act config e0 e1 rest e' ->
    forwarded act config e0 e (inv :: rest) e'.

(** The messages of a list object, as they are in the state [e]. *)
Definition messages_in (e : E) (fetched : obj (list (obj dict))) : list dict :=
  map (fun m => m e) (fetched e).

(** The invoices among the message objects of a list, in the state [e]. *)
Definition invoices_in (e : E) (fetched : obj (list (obj dict)))
    : list (obj dict) :=
  List.filter (fun m => mentions_invoice (m e)) (fetched e).

End Forwarding.

(** Every row of the table of agents carries its own key. *)
Definition keyed (agents : gmap Z Agent.t) : Prop :=
  forall (k : Z) (agent : Agent.t), agents !! k = Some agent -> Agent.id agent = k.

(** The registry of the scenarios: the shipped plugins, then a connector
    registered as [mock_email] that is built over [messages]. *)
Definition scenario_registry {E} (r0 : @Registry E)
    (messages : option (list dict)) : @Registry E :=
  register_connector (register_plugins r0) "mock_email"
    (fun e => (Ok (MockEmailConnector messages), e)).

(** ** Sample data

    A process whose outside world is a counter of the actions run so far,
    with the registry of [register_plugins] and a mock connector that holds
    three messages. *)

Module Sample.

Definition repr (v : pyval) : string :=
  match v with
  | VNone => "None"
  | VBool b => if b then "True" else "False"
  | VInt n => str_of_int n
  | VStr s => "'" +:+ s +:+ "'"
  | VList _ => "[...]"
  | VDict _ => "{...}"
  end.

Definition quoted (s : string) : string :=
  String (ascii_of_nat 34) s +:+ String (ascii_of_nat 34) EmptyString.

(** [json.dumps] on documents whose strings need no escape. *)
Fixpoint dumps (v : pyval) : string :=
  match v with
  | VNone => "null"
  | VBool b => if b then "true" else "false"
  | VInt n => str_of_int n
  | VStr s => quoted s
  | VList l =>
      "[" +:+ (fix items (l : list pyval) : string :=
                 match l with
                 | [] => ""
                 | [x] => dumps x
                 | x :: l' => dumps x +:+ ", " +:+ items l'
                 end) l +:+ "]"
  | VDict d =>
      "{" +:+ (fix items (d : dict) : string :=
                 match d with
                 | [] => ""
                 | [(k, x)] => quoted k +:+ ": " +:+ dumps x
                 | (k, x) :: d' => quoted k +:+ ": " +:+ dumps x +:+ ", " +:+ items d'
                 end) d +:+ "}"
  end.

Definition json_dumps (v : pyval) : res string := Ok (dumps v).

Definition clock (n : nat) : Z := 1700000000 + Z.of_nat n.

Definition messages : list dict :=
  [ [("subject", VStr "Hello"); ("body", VStr "How are you?")];
    [("subject", VStr "Invoice #4"); ("body", VStr "Please pay.")];
    [("subject", VStr "Lunch on Friday")] ].

Definition invoices3 : list dict :=
  [ [("subject", VStr "Invoice #1"); ("body", VStr "one")];
    [("subject", VStr "INVOICE #2"); ("body", VStr "two")];
    [("subject", VStr "your invoice"); ("body", VStr "three")] ].

(** An action that fails the second time it is run. *)
Definition flaky : @Action nat :=
  {| run := fun _ n =>
       if (n =? 1)%nat
       then (Raise (Raised "RuntimeError" "mail server down" true), S n)
       else (Ok VNone, S n) |}.

(** An action that is cancelled while it runs: [asyncio.CancelledError]
    derives from [BaseException]. *)
Definition cancelled : @Action nat :=
  {| run := fun _ n => (Raise (Raised "CancelledError" "" false), S n) |}.

Definition registry (msgs : list dict) : @Registry nat :=
  scenario_registry Registry_init (Some msgs).

Definition registry_with (msgs : list dict) (act : @Action nat) : @Registry nat :=
  register_action (registry msgs) "email" (fun e => (Ok act, e)).

Definition agent (kind : string) : Agent.t :=
  {| Agent.id := 1; Agent.name := "invoices"; Agent.kind := kind;
     Agent.config := [("accounting_email", VStr "books@example.org")];
     Agent.schedule_seconds := 300; Agent.enabled := true |}.

Definition queued : Run.t :=
  {| Run.agent_id := 1; Run.status := "queued"; Run.started_at := None;
     Run.finished_at := None; Run.logs := "" |}.

Definition process (r : @Registry nat) (kind : string) : @world nat :=
  {| w_registry := r; w_ext := 0%nat; w_calls := [];
     w_agents := {[ 1 := agent kind ]}; w_runs := {[ 1 := queued ]};
     w_now_calls := 0; w_events := [] |}.

(** A queued run whose agent is not stored. *)
Definition orphan : Run.t :=
  {| Run.agent_id := 4; Run.status := "queued"; Run.started_at := None;
     Run.finished_at := None; Run.logs := "" |}.

Definition orphan_world : @world nat :=
  with_runs {[ 1 := orphan ]} (process (registry messages) "invoice_email").

(** Two invoices, the second with a null body. *)
Definition null_body : list dict :=
  [ [("subject", VStr "Invoice #7"); ("body", VStr "seven")];
    [("subject", VStr "invoice #8"); ("body", VNone)];
    [("subject", VStr "Invoice #9"); ("body", VStr "nine")] ].

(** A message whose subject is null, behind an invoice. *)
Definition null_subject : list dict :=
  [ [("subject", VStr "Invoice #7"); ("body", VStr "seven")];
    [("subject", VNone); ("body", VStr "?")] ].

(** A connector that hands out its own list of three invoices, and an
    action that clears that list when it runs: the state of the outside
    world counts the runs of the action, and the list is empty once the
    action has run. *)
Definition own_list : @obj nat (list (@obj nat dict)) :=
  fun n => if (n =? 0)%nat then map (fun m _ => m) invoices3 else [].

Definition lending : @Connector nat :=
  {| fetch := fun _ e => (Ok own_list, e) |}.

Definition clearing : @Action nat :=
  {| run := fun _ n => (Ok VNone, S n) |}.

Definition lending_registry : @Registry nat :=
  register_action
    (register_connector Registry_init "mock_email" (fun e => (Ok lending, e)))
    "email" (fun e => (Ok clearing, e)).

(** What [IntervalTrigger(seconds=seconds)] does at the time [clock 0],
    the trigger kept as the seconds of its interval. [timedelta] raises
    [OverflowError] when the days do not fit a C int or exceed 999999999
    in magnitude, an interval of 0 seconds becomes one of 1 second, and
    the start date, now plus the interval, raises [OverflowError] when it
    leaves the years 1 to 9999. *)
Definition IntervalTrigger (seconds : Z) : res Z :=
  let days := seconds / 86400 in
  if ((days <? -2147483648) || (2147483647 <? days))%bool
  then Raise (Raised "OverflowError"
                "Python int too large to convert to C int" true)
  else if ((days <? -999999999) || (999999999 <? days))%bool
  then Raise (Raised "OverflowError"
                ("days=" +:+ str_of_int days
                 +:+ "; must have magnitude <= 999999999") true)
  else
    let interval := if seconds =? 0 then 1 else seconds in
    let start_date := clock 0 + interval in
    if ((start_date <? -62135596800) || (253402300799 <? start_date))%bool
    then Raise (Raised "OverflowError" "date value out of range" true)
    else Ok interval.

(** A stored agent with a schedule, enabled or not. *)
Definition scheduled (agent_id seconds : Z) (on : bool) : Agent.t :=
  {| Agent.id := agent_id; Agent.name := "agent"; Agent.kind := "invoice_email";
     Agent.config := []; Agent.schedule_seconds := seconds;
     Agent.enabled := on |}.

Definition agents : gmap Z Agent.t :=
  {[ 1 := scheduled 1 60 true; 2 := scheduled 2 300 false;
     3 := scheduled 3 30 true ]}.

End Sample.

(** * Properties *)

(** ** Strings *)







Lemma dict_get_absent (d : dict) (key : string) (dflt : pyval) :
  key ∉ d.*1 -> dict_get d key dflt = dflt.
Proof.
  induction d as [|[k v] d IH]; simpl; [done |].
  intros H. apply not_elem_of_cons in H as [Hk Hd].
  destruct (String.eqb_spec k key); [congruence | auto].
Qed.

(** ** The capability registry *)

Section RegistryFacts.
Context {E : Type}.
Implicit Types (r : @Registry E) (e : E).

Lemma connector_registered r (name : string) rc e :
  _connectors r !! name = Some rc ->
  connector r (VStr name) e = rc_factory rc e.
Proof. intros H. unfold connector, subscript. by rewrite H. Qed.

Lemma action_registered r (name : string) ra e :
  _actions r !! name = Some ra ->
  action r (VStr name) e = ra_factory ra e.
Proof. intros H. unfold action, subscript. by rewrite H. Qed.

(** C6. Looking up a name that was never registered, as a connector or as
    an action, raises [KeyError] with that name as its argument (the
    [NotFound] of the specification); no factory is run, so no component
    comes back and the outside world is as it was. *)
Theorem lookup_unregistered_raises r (name : string) e :
  (_connectors r !! name = None ->
   connector r (VStr name) e = (Raise (KeyError (VStr name)), e)) /\
  (_actions r !! name = None ->
   action r (VStr name) e = (Raise (KeyError (VStr name)), e)).
Proof.
  split; intros H; unfold connector, action, subscript; by rewrite H.
Qed.

(** C9. Registering under a name a second time replaces the first entry:
    the registry is the one a single registration of the later factory
    gives, and a lookup of the name runs the later factory. Registration
    is a total function, it has no failing case. *)
Theorem register_last_write_wins r (name : string)
    (c1 c2 : P (@Connector E)) (a1 a2 : P (@Action E)) e :
  register_connector (register_connector r name c1) name c2
    = register_connector r name c2 /\
  connector (register_connector (register_connector r name c1) name c2)
    (VStr name) e = c2 e /\
  register_action (register_action r name a1) name a2
    = register_action r name a2 /\
  action (register_action (register_action r name a1) name a2)
    (VStr name) e = a2 e.
Proof.
  repeat split.
  - unfold register_connector; simpl. by rewrite insert_insert_eq.
  - erewrite connector_registered; [| apply lookup_insert_eq]. done.
  - unfold register_action; simpl. by rewrite insert_insert_eq.
  - erewrite action_registered; [| apply lookup_insert_eq]. done.
Qed.

(** Registration leaves the other names alone. *)
Lemma register_connector_other r (name other : string) c e :
  name <> other ->
  connector (register_connector r name c) (VStr other) e
    = connector r (VStr other) e.
Proof.
  intros H. unfold connector, subscript; simpl. by rewrite lookup_insert_ne.
Qed.

Lemma register_action_other r (name other : string) a e :
  name <> other ->
  action (register_action r name a) (VStr other) e = action r (VStr other) e.
Proof.
  intros H. unfold action, subscript; simpl. by rewrite lookup_insert_ne.
Qed.

End RegistryFacts.

(** The witness of C6: nothing is registered in a new registry. *)
Lemma lookup_unregistered_raises_witness :
  connector (E:=nat) Registry_init (VStr "smtp") 0%nat
    = (Raise (KeyError (VStr "smtp")), 0%nat) /\
  action (E:=nat) Registry_init (VStr "smtp") 0%nat
    = (Raise (KeyError (VStr "smtp")), 0%nat).
Proof.
  split.
  - apply (proj1 (lookup_unregistered_raises Registry_init "smtp" 0%nat)).
    reflexivity.
  - apply (proj2 (lookup_unregistered_raises Registry_init "smtp" 0%nat)).
    reflexivity.
Defined.

(** ** The invoice agent *)

Section AgentFacts.
Context {E : Type}.
Variable py_repr : pyval -> string.
Implicit Types (w : @world E) (act : @Action E) (e : E).

Lemma same_store_refl w : same_store w w.
Proof. by repeat split. Qed.

Lemma same_store_trans w1 w2 w3 :
  same_store w1 w2 -> same_store w2 w3 -> same_store w1 w3.
Proof.
  intros (? & ? & ? & ? & ?) (? & ? & ? & ? & ?).
  repeat split; congruence.
Qed.

Lemma plugin_same_store {A} (p : P A) w r w' :
  plugin p w = (r, w') -> same_store w w' /\ w_calls w' = w_calls w.
Proof.
  unfold plugin. destruct (p (w_ext w)) as [r0 e]. intros [= <- <-].
  by repeat split.
Qed.

Lemma call_action_spec name act kwargs w r w' :
  call_action name act kwargs w = (r, w') ->
  same_store w w' /\ w_calls w' = w_calls w ++ [ActionRun name kwargs] /\
  (r, w_ext w') = run act kwargs (w_ext w).
Proof.
  unfold call_action, plugin; simpl.
  destruct (run act kwargs (w_ext w)) as [r0 e]. intros [= <- <-].
  by repeat split.
Qed.


(** When the comprehension does not raise, it keeps the messages that
    mention an invoice. *)
Lemma filter_invoices_typed e (messages : list (obj dict)) :
  Forall (fun m => is_Some (subject_of m)) (map (fun m => m e) messages) ->
  filter_invoices e messages
  = Ok (List.filter (fun m => mentions_invoice (m e)) messages).
Proof.
  induction messages as [|m ms IH]; simpl; [done |].
  intros H. apply Forall_cons in H as [[s Hs] H].
  unfold is_invoice, mentions_invoice. rewrite Hs.
  unfold subject_of in Hs.
  destruct (dict_get (m e) "subject" (VStr "")) eqn:Hg; try discriminate.
  injection Hs as ->. simpl. rewrite (IH H).
  by destruct (str_contains "invoice" (lower s)).
Qed.

Lemma filter_invoices_length e (messages kept : list (obj dict)) :
  filter_invoices e messages = Ok kept -> (length kept <= length messages)%nat.
Proof.
  revert kept. induction messages as [|m ms IH]; simpl; intros kept.
  - intros [= <-]. done.
  - destruct (is_invoice (m e)) as [b|]; [| done].
    destruct (filter_invoices e ms) as [k|]; [| done].
    intros [= <-]. specialize (IH k eq_refl). destruct b; simpl; lia.
Qed.

(** A forwarding call carries the recipient of the configuration, the
    subject behind [FWD: ] and the body. *)
Lemma forward_kwargs_call name (config m : dict) :
  mentions_invoice m = true ->
  ActionRun name (forward_kwargs py_repr config m) = forwarding_call name config m.
Proof.
  unfold mentions_invoice, forwarding_call, forward_kwargs, subject_of.
  destruct (dict_get m "subject" (VStr "")); try done.
Qed.

(** The loop returns only after it has run the action on every invoice. *)
Lemma forward_all_length name act config (invoices : list (obj dict)) :
  forall (acc results : list pyval) w w',
    forward_all py_repr name act config invoices acc w = (Ok results, w') ->
    length results = (length acc + length invoices)%nat /\
    length (w_calls w') = (length (w_calls w) + length invoices)%nat.
Proof.
  induction invoices as [|inv rest IH]; intros acc results w w'; simpl.
  - unfold ret. intros [= <- <-]. lia.
  - unfold bind.
    destruct (call_action name act _ w) as [[r|exc] w1] eqn:Hc; [| done].
    apply call_action_spec in Hc as (_ & Hc & _).
    intros H. apply IH in H as [H1 H2].
    rewrite length_app in H1. rewrite Hc, length_app in H2. simpl in *. lia.
Qed.

Lemma forward_all_same_store name act config (invoices : list (obj dict)) :
  forall (acc : list pyval) w r w',
    forward_all py_repr name act config invoices acc w = (r, w') ->
    same_store w w'.
Proof.
  induction invoices as [|inv rest IH]; intros acc w r w'; simpl.
  - unfold ret. intros [= _ <-]. apply same_store_refl.
  - unfold bind.
    destruct (call_action name act _ w) as [[v|exc] w1] eqn:Hc;
      apply call_action_spec in Hc as (Hs & _).
    + intros H. apply IH in H. by eapply same_store_trans.
    + by intros [= _ <-].
Qed.

(** The loop, when the action returns on every invoice in its turn and
    the invoices are as they were filtered: one call for each, in order,
    and the outside world is where the last call leaves it. *)
Lemma forward_all_forwarded name act config e0 (invoices : list (obj dict)) e e' :
  forwarded py_repr act config e0 e invoices e' ->
  forall (acc : list pyval) w,
    w_ext w = e ->
    exists results w',
      forward_all py_repr name act config invoices acc w = (Ok results, w') /\
      w_ext w' = e' /\
      w_calls w' = w_calls w
                   ++ map (fun inv => ActionRun name
                                        (forward_kwargs py_repr config (inv e0)))
                          invoices.
Proof.
  induction 1 as [e|e e1 e' inv rest r Hsame Hrun _ IH]; intros acc w Hw; simpl.
  - exists acc, w. by rewrite app_nil_r.
  - unfold bind. rewrite Hw, Hsame.
    destruct (call_action name act (forward_kwargs py_repr config (inv e0)) w)
      as [r1 w1] eqn:Hc.
    apply call_action_spec in Hc as (_ & Hcalls & Hr).
    rewrite Hw, Hrun in Hr. injection Hr as -> Hext.
    destruct (IH (acc ++ [r]) w1 Hext) as (results & w' & Hf & Hext' & Hcalls').
    exists results, w'. split; [exact Hf |]. split; [exact Hext' |].
    by rewrite Hcalls', Hcalls, <- app_assoc.
Qed.

Lemma agent_run_same_store (self : InvoiceEmailAgent) w r w' :
  InvoiceEmailAgent_run py_repr self w = (r, w') -> same_store w w'.
Proof.
  unfold InvoiceEmailAgent_run, bind, lift, ret.
  destruct (plugin (connector (w_registry w) _) w) as [[conn|exc] w1] eqn:H1;
    apply plugin_same_store in H1 as [S1 _]; [| by intros [= _ <-]].
  destruct (plugin (fetch conn []) w1) as [[messages|exc] w2] eqn:H2;
    apply plugin_same_store in H2 as [S2 _];
    [| intros [= _ <-]; by eapply same_store_trans].
  destruct (filter_invoices (w_ext w2) (messages (w_ext w2))) as [invoices|exc];
    [| intros [= _ <-]; by eapply same_store_trans].
  destruct (plugin (action (w_registry w2) _) w2) as [[act|exc] w3] eqn:H3;
    apply plugin_same_store in H3 as [S3 _];
    [| intros [= _ <-]; eauto using same_store_trans].
  destruct (forward_all _ _ _ _ _ _ w3) as [[results|exc] w4] eqn:H4;
    apply forward_all_same_store in H4; intros [= _ <-];
    eauto using same_store_trans.
Qed.

(** The normal path of [run]: both names resolve, the fetch returns, every
    subject that is present is a string and the action returns on every
    invoice in its turn. [inputs] is the length of the fetched list when
    the result is built. *)
Lemma agent_run_forwarded (self : InvoiceEmailAgent) w conn e1
    (fetched : obj (list (obj dict))) e2 act e3 e4 :
  let config := self_config self in
  let action_name := dict_get config "action" (VStr "email") in
  let kept := map (fun m => m e2) (invoices_in e2 fetched) in
  connector (w_registry w) (dict_get config "connector" (VStr "mock_email"))
    (w_ext w) = (Ok conn, e1) ->
  fetch conn [] e1 = (Ok fetched, e2) ->
  Forall (fun m => is_Some (subject_of m)) (messages_in e2 fetched) ->
  action (w_registry w) action_name e2 = (Ok act, e3) ->
  forwarded py_repr act config e2 e3 (invoices_in e2 fetched) e4 ->
  exists w',
    InvoiceEmailAgent_run py_repr self w
      = (Ok (counts (Z.of_nat (length (fetched e4))) (Z.of_nat (length kept))
                    (Z.of_nat (length kept))), w') /\
    w_calls w' = w_calls w ++ map (forwarding_call action_name config) kept /\
    w_ext w' = e4.
Proof.
  intros config action_name kept Hconn Hfetch Htyped Hact Hfw.
  unfold InvoiceEmailAgent_run, bind, lift, ret, plugin.
  fold config. rewrite Hconn. simpl. rewrite Hfetch. simpl.
  rewrite (filter_invoices_typed _ _ Htyped). fold action_name.
  rewrite Hact. fold (invoices_in e2 fetched).
  destruct (forward_all_forwarded action_name act config e2 _ _ _ Hfw []
              (with_ext e3 (with_ext e2 (with_ext e1 w))) eq_refl)
    as (results & w' & Hf & Hext & Hcalls).
  rewrite Hf. exists w'.
  apply forward_all_length in Hf as [Hlen _]. simpl in Hlen.
  unfold kept. rewrite length_map, Hlen, Hext. split; [done |].
  split; [| done].
  rewrite Hcalls. simpl. f_equal. rewrite map_map. apply map_ext_in.
  intros m Hm. apply forward_kwargs_call.
  apply filter_In in Hm. tauto.
Qed.


(** C10, as the code has it. Whenever [run] returns, its result is the
    document of the three counts with [sent] equal to [invoices], and the
    action has been run [sent] times; [invoices] is at most the length the
    fetched list had when it was filtered, and [inputs] is the length the
    same list has when [run] returns. So [invoices] is at most [inputs]
    when the list has not become shorter in between. *)
Theorem invoice_agent_counts (self : InvoiceEmailAgent) w result w' :
  InvoiceEmailAgent_run py_repr self w = (Ok result, w') ->
  exists conn e1 (fetched : obj (list (obj dict))) e2 (invoices sent : Z),
    connector (w_registry w)
      (dict_get (self_config self) "connector" (VStr "mock_email")) (w_ext w)
    = (Ok conn, e1) /\
    fetch conn [] e1 = (Ok fetched, e2) /\
    result = counts (Z.of_nat (length (fetched (w_ext w')))) invoices sent /\
    sent = invoices /\
    0 <= invoices <= Z.of_nat (length (fetched e2)) /\
    length (w_calls w') = (length (w_calls w) + Z.to_nat sent)%nat /\
    ((length (fetched e2) <= length (fetched (w_ext w')))%nat ->
     invoices <= Z.of_nat (length (fetched (w_ext w')))).
Proof.
  unfold InvoiceEmailAgent_run, bind, lift, ret, plugin.
  destruct (connector (w_registry w) _ (w_ext w)) as [[conn|exc] e1] eqn:H1;
    [| done].
  simpl. destruct (fetch conn [] e1) as [[fetched|exc] e2] eqn:H2; [| done].
  simpl. destruct (filter_invoices e2 (fetched e2)) as [invoices|exc] eqn:Hf;
    [| done].
  apply filter_invoices_length in Hf.
  destruct (action (w_registry w) _ e2) as [[act|exc] e3] eqn:H3; [| done].
  destruct (forward_all _ _ _ _ _ _ _) as [[results|exc] w4] eqn:H4; [| done].
  intros [= <- <-].
  apply forward_all_length in H4 as [Hlen Hcalls]. simpl in Hlen, Hcalls.
  exists conn, e1, fetched, e2, (Z.of_nat (length invoices)),
         (Z.of_nat (length results)).
  rewrite Hlen. split; [done |]. split; [done |]. split; [done |].
  split; [done |]. split; [lia |]. split; [rewrite Hcalls; lia | lia].
Qed.

(** What the mock connector hands out holds the same in every state. *)
Lemma mock_invoices e (msgs : list dict) :
  invoices_in e (fun _ => map (fun m (_ : E) => m) msgs)
  = map (fun m _ => m) (List.filter mentions_invoice msgs).
Proof.
  unfold invoices_in. induction msgs as [|m l IH]; simpl; [done |].
  destruct (mentions_invoice m); simpl; by rewrite IH.
Qed.

Lemma mock_messages e (msgs : list dict) :
  messages_in e (fun _ => map (fun m (_ : E) => m) msgs) = msgs.
Proof.
  unfold messages_in. rewrite map_map. apply map_id.
Qed.

(** The shipped [EmailAction] on a forwarding call: it returns when the
    body has a length, and it leaves the outside world alone. *)
Lemma email_action_on_forward (config m : dict) e :
  is_Ok (fst (run EmailAction (forward_kwargs py_repr config m) e))
  = body_has_len m /\
  snd (run EmailAction (forward_kwargs py_repr config m) e) = e.
Proof.
  unfold body_has_len. simpl.
  by destruct (py_len (dict_get m "body" (VStr ""))).
Qed.

(** The shipped actions on messages that nothing changes. *)
Lemma forwarded_email (config : dict) e0 e (msgs : list dict) :
  forallb body_has_len msgs = true ->
  forwarded py_repr EmailAction config e0 e (map (fun m (_ : E) => m) msgs) e.
Proof.
  induction msgs as [|m l IH]; simpl; intros H; [constructor |].
  apply andb_true_iff in H as [Hm Hl].
  destruct (email_action_on_forward config m e) as [Hok Hext].
  destruct (run EmailAction (forward_kwargs py_repr config m) e)
    as [[r|exc] e1] eqn:Hrun; simpl in Hok, Hext.
  - subst e1. econstructor; [done | exact Hrun | by apply IH].
  - congruence.
Qed.

Lemma forwarded_log (config : dict) e0 e (msgs : list dict) :
  forwarded py_repr LogAction config e0 e (map (fun m (_ : E) => m) msgs) e.
Proof.
  induction msgs as [|m l IH]; simpl; [constructor |].
  econstructor; [done | reflexivity | exact IH].
Qed.

Lemma scenario_connector (r0 : @Registry E) msgs e :
  connector (scenario_registry r0 msgs) (VStr "mock_email") e
    = (Ok (MockEmailConnector msgs), e).
Proof.
  unfold scenario_registry.
  erewrite connector_registered; [| apply lookup_insert_eq]. done.
Qed.

Lemma scenario_action (r0 : @Registry E) msgs e :
  action (scenario_registry r0 msgs) (VStr "email") e = (Ok EmailAction, e).
Proof.
  unfold action, subscript, scenario_registry, register_plugins; simpl.
  rewrite lookup_insert_ne by done. by rewrite lookup_insert_eq.
Qed.

Lemma scenario_log_action (r0 : @Registry E) msgs e :
  action (scenario_registry r0 msgs) (VStr "log") e = (Ok LogAction, e).
Proof.
  unfold action, subscript, scenario_registry, register_plugins; simpl.
  by rewrite lookup_insert_eq.
Qed.

(** The run over the mock connector and one of the shipped actions, which
    returns on every invoice. *)
Lemma scenario_run (r0 : @Registry E) (config : dict) w
    (msgs : option (list dict)) (name : string) act :
  "connector" ∉ config.*1 ->
  dict_get config "action" (VStr "email") = VStr name ->
  w_registry w = scenario_registry r0 msgs ->
  (forall e, action (scenario_registry r0 msgs) (VStr name) e = (Ok act, e)) ->
  Forall (fun m => is_Some (subject_of m)) (default [] msgs) ->
  (forall e, forwarded py_repr act config e e
               (map (fun m (_ : E) => m)
                    (List.filter mentions_invoice (default [] msgs))) e) ->
  let kept := List.filter mentions_invoice (default [] msgs) in
  exists w',
    InvoiceEmailAgent_run py_repr (InvoiceEmailAgent_init config) w
    = (Ok (counts (Z.of_nat (length (default [] msgs)))
                  (Z.of_nat (length kept)) (Z.of_nat (length kept))), w') /\
    w_calls w' = w_calls w ++ map (forwarding_call (VStr name) config) kept /\
    w_ext w' = w_ext w.
Proof.
  intros Hc Ha Hreg Haction Htyped Hfw kept.
  destruct (agent_run_forwarded (InvoiceEmailAgent_init config) w
              (MockEmailConnector msgs) (w_ext w)
              (fun _ => map (fun m _ => m) (default [] msgs)) (w_ext w)
              act (w_ext w) (w_ext w)) as (w' & Hrun & Hcalls & Hext); simpl.
  - rewrite Hreg, (dict_get_absent _ _ _ Hc). apply scenario_connector.
  - done.
  - by rewrite mock_messages.
  - by rewrite Hreg, Ha.
  - rewrite mock_invoices. apply Hfw.
  - simpl in Hrun, Hcalls. rewrite Ha, mock_invoices in Hcalls.
    rewrite mock_invoices in Hrun.
    rewrite !length_map in Hrun. rewrite !map_map in Hcalls.
    exists w'. by rewrite Hrun, Hcalls.
Qed.

Lemma filter_none (l : list dict) :
  Forall (fun m => is_Some (subject_of m) /\ mentions_invoice m = false) l ->
  List.filter mentions_invoice l = [].
Proof.
  induction 1 as [|m l [_ Hm] _ IH]; simpl; [done | by rewrite Hm].
Qed.

(** C4. With the shipped plugins, a configuration that names no connector
    and no action, and a [mock_email] connector over three messages, one
    of them with the subject [Invoice #4] and a text body and the two
    others no invoices, the agent returns the counts 3, 1, 1 and the one
    call is the forwarding of that message. Over no message it returns
    0, 0, 0 and runs no action. *)
Theorem invoice_scenarios (r0 : @Registry E) (config : dict) w
    (pre post : list dict) (inv : dict) (body : string) :
  "connector" ∉ config.*1 ->
  "action" ∉ config.*1 ->
  (w_registry w = scenario_registry r0 (Some (pre ++ inv :: post)) ->
   length (pre ++ inv :: post) = 3%nat ->
   subject_of inv = Some "Invoice #4" ->
   dict_get inv "body" (VStr "") = VStr body ->
   Forall (fun m => is_Some (subject_of m) /\ mentions_invoice m = false)
     (pre ++ post) ->
   exists w',
     InvoiceEmailAgent_run py_repr (InvoiceEmailAgent_init config) w
       = (Ok (counts 3 1 1), w') /\
     w_calls w' = w_calls w ++ [forwarding_call (VStr "email") config inv]) /\
  (forall msgs,
     w_registry w = scenario_registry r0 msgs ->
     default [] msgs = [] ->
     exists w',
       InvoiceEmailAgent_run py_repr (InvoiceEmailAgent_init config) w
         = (Ok (counts 0 0 0), w') /\
       w_calls w' = w_calls w).
Proof.
  intros Hc Ha. split.
  - intros Hreg Hlen Hsubj Hbody Hothers.
    apply Forall_app in Hothers as [Hpre Hpost].
    assert (Hinv : mentions_invoice inv = true)
      by (unfold mentions_invoice; by rewrite Hsubj).
    assert (Hkept : List.filter mentions_invoice (pre ++ inv :: post) = [inv]).
    { rewrite List.filter_app. simpl.
      by rewrite Hinv, (filter_none _ Hpre), (filter_none _ Hpost). }
    destruct (scenario_run r0 config w (Some (pre ++ inv :: post)) "email"
                EmailAction Hc (dict_get_absent _ _ _ Ha) Hreg
                (scenario_action r0 _))
      as (w' & Hrun & Hcalls & _); simpl.
    + apply Forall_app. split; [by eapply Forall_impl; [exact Hpre | intros ? []] |].
      constructor; [by rewrite Hsubj |].
      by eapply Forall_impl; [exact Hpost | intros ? []].
    + intros e. apply forwarded_email. rewrite Hkept. simpl.
      unfold body_has_len. by rewrite Hbody.
    + simpl in Hrun, Hcalls. rewrite Hkept, Hlen in Hrun. rewrite Hkept in Hcalls.
      exists w'. by rewrite Hrun, Hcalls.
  - intros msgs Hreg Hnone.
    destruct (scenario_run r0 config w msgs "email"
                EmailAction Hc (dict_get_absent _ _ _ Ha) Hreg
                (scenario_action r0 _))
      as (w' & Hrun & Hcalls & _); simpl.
    + by rewrite Hnone.
    + intros e. rewrite Hnone. constructor.
    + rewrite Hnone in Hrun, Hcalls. simpl in Hrun, Hcalls.
      exists w'. rewrite Hrun, Hcalls. by rewrite app_nil_r.
Qed.

End AgentFacts.



(** The witness of C10: the run over the sample messages, which returns. *)
Lemma invoice_agent_counts_witness :
  let self :=
    InvoiceEmailAgent_init (Agent.config (Sample.agent "invoice_email")) in
  let w := Sample.process (Sample.registry Sample.messages) "invoice_email" in
  let w' := snd (InvoiceEmailAgent_run Sample.repr self w) in
  exists conn e1 (fetched : obj (list (obj dict))) e2 (invoices sent : Z),
    connector (w_registry w)
      (dict_get (self_config self) "connector" (VStr "mock_email")) (w_ext w)
    = (Ok conn, e1) /\
    fetch conn [] e1 = (Ok fetched, e2) /\
    counts 3 1 1 = counts (Z.of_nat (length (fetched (w_ext w')))) invoices sent /\
    sent = invoices /\
    0 <= invoices <= Z.of_nat (length (fetched e2)) /\
    length (w_calls w') = (length (w_calls w) + Z.to_nat sent)%nat /\
    ((length (fetched e2) <= length (fetched (w_ext w')))%nat ->
     invoices <= Z.of_nat (length (fetched (w_ext w')))).
Proof.
  intros self w w'.
  apply (invoice_agent_counts Sample.repr self w (counts 3 1 1) w').
  vm_compute; reflexivity.
Defined.

(** Against C10 as the spec words it: a connector hands out the list it
    keeps, three invoices, and the action empties that list when it runs.
    The run returns normally, with three invoices forwarded and no input. *)
Lemma emptied_list_counts :
  exists w',
    InvoiceEmailAgent_run Sample.repr
      (InvoiceEmailAgent_init (Agent.config (Sample.agent "invoice_email")))
      (Sample.process Sample.lending_registry "invoice_email")
    = (Ok (counts 0 3 3), w') /\
    length (w_calls w') = 3%nat /\
    ~ (3 <= 0).
Proof.
  eexists. split; [vm_compute; reflexivity |]. split; [reflexivity | lia].
Qed.

(** The witness of C4: the sample messages, and a connector over none. *)
Lemma invoice_scenarios_witness :
  (exists w',
     InvoiceEmailAgent_run Sample.repr
       (InvoiceEmailAgent_init (Agent.config (Sample.agent "invoice_email")))
       (Sample.process (Sample.registry Sample.messages) "invoice_email")
     = (Ok (counts 3 1 1), w') /\
     length (w_calls w') = 1%nat) /\
  (exists w',
     InvoiceEmailAgent_run Sample.repr
       (InvoiceEmailAgent_init (Agent.config (Sample.agent "invoice_email")))
       (Sample.process (Sample.registry []) "invoice_email")
     = (Ok (counts 0 0 0), w') /\
     w_calls w' = []).
Proof.
  assert (Hc : "connector" ∉ (Agent.config (Sample.agent "invoice_email")).*1)
    by (simpl; rewrite list_elem_of_singleton; discriminate).
  assert (Ha : "action" ∉ (Agent.config (Sample.agent "invoice_email")).*1)
    by (simpl; rewrite list_elem_of_singleton; discriminate).
  split.
  - destruct (proj1 (invoice_scenarios Sample.repr Registry_init
               (Agent.config (Sample.agent "invoice_email"))
               (Sample.process (Sample.registry Sample.messages) "invoice_email")
               [ [("subject", VStr "Hello"); ("body", VStr "How are you?")] ]
               [ [("subject", VStr "Lunch on Friday")] ]
               [("subject", VStr "Invoice #4"); ("body", VStr "Please pay.")]
               "Please pay." Hc Ha))
      as (w' & Hrun & Hcalls).
    + reflexivity.
    + reflexivity.
    + reflexivity.
    + reflexivity.
    + repeat constructor; by eexists.
    + exists w'. split; [exact Hrun |]. by rewrite Hcalls.
  - apply (proj2 (invoice_scenarios Sample.repr Registry_init
               (Agent.config (Sample.agent "invoice_email"))
               (Sample.process (Sample.registry []) "invoice_email")
               [] [] [] "" Hc Ha) (Some [])); reflexivity.
Defined.
(** ** The dispatcher *)

Section DispatcherFacts.
Context {E : Type}.
Variable py_repr : pyval -> string.
Implicit Types (w : @world E) (table : gmap string (dict -> @AgentObject E)).

Lemma run_agent_in_absent table (kind : string) (config : dict) w :
  table !! kind = None ->
  run_agent_in table kind config w = (Raise (KeyError (VStr kind)), w).
Proof. intros H. unfold run_agent_in, bind, lift, subscript. by rewrite H. Qed.

Lemma run_agent_in_present table (kind : string) cls (config : dict) w :
  table !! kind = Some cls ->
  run_agent_in table kind config w = agent_run (cls config) w.
Proof. intros H. unfold run_agent_in, bind, lift, subscript. by rewrite H. Qed.

Lemma run_agent_invoice_email (config : dict) w :
  run_agent py_repr InvoiceEmailAgent_kind config w
  = InvoiceEmailAgent_run py_repr (InvoiceEmailAgent_init config) w.
Proof.
  unfold run_agent.
  erewrite run_agent_in_present; [| apply lookup_singleton_eq]. done.
Qed.

Lemma run_agent_unknown (kind : string) (config : dict) w :
  kind <> InvoiceEmailAgent_kind ->
  run_agent py_repr kind config w = (Raise (KeyError (VStr kind)), w).
Proof.
  intros H. apply run_agent_in_absent. by apply lookup_singleton_ne.
Qed.

(** The dispatched behaviour is plugin code all through. *)
Lemma run_agent_same_store (kind : string) (config : dict) w r w' :
  run_agent py_repr kind config w = (r, w') -> same_store w w'.
Proof.
  destruct (decide (kind = InvoiceEmailAgent_kind)) as [->|Hne].
  - rewrite run_agent_invoice_email. apply agent_run_same_store.
  - rewrite run_agent_unknown by done. intros [= _ <-]. apply same_store_refl.
Qed.

(** C7. For a kind that the table of kinds lacks, [run_agent] raises
    [KeyError] with the kind as its argument (the [UnknownAgentKind] of the
    specification) and nothing runs. For a kind the table has, it builds
    the object of the class over [config] and what it returns or raises is
    what the object's [run] does. The table holds the one kind
    [invoice_email]. *)
Theorem run_agent_dispatches (kind : string) (config : dict) w :
  (AGENT_KIND_TO_CLASS (E:=E) py_repr !! kind = None ->
   run_agent py_repr kind config w = (Raise (KeyError (VStr kind)), w)) /\
  (forall cls,
     AGENT_KIND_TO_CLASS (E:=E) py_repr !! kind = Some cls ->
     run_agent py_repr kind config w = agent_run (cls config) w) /\
  (AGENT_KIND_TO_CLASS (E:=E) py_repr !! kind = None <-> kind <> "invoice_email").
Proof.
  split; [| split].
  - apply run_agent_in_absent.
  - intros cls. apply run_agent_in_present.
  - unfold AGENT_KIND_TO_CLASS. rewrite lookup_singleton_None.
    unfold InvoiceEmailAgent_kind. split; congruence.
Qed.

End DispatcherFacts.

(** The witness of C7: an unknown kind, and the invoice agent. *)
Lemma run_agent_dispatches_witness :
  run_agent Sample.repr "backup" []
    (Sample.process (Sample.registry Sample.messages) "backup")
  = (Raise (KeyError (VStr "backup")),
     Sample.process (Sample.registry Sample.messages) "backup") /\
  run_agent Sample.repr "invoice_email" []
    (Sample.process (Sample.registry Sample.messages) "invoice_email")
  = agent_run (InvoiceEmailAgent_cls Sample.repr [])
      (Sample.process (Sample.registry Sample.messages) "invoice_email").
Proof.
  split.
  - apply (proj1 (run_agent_dispatches Sample.repr "backup" [] _)).
    reflexivity.
  - apply (proj1 (proj2 (run_agent_dispatches Sample.repr "invoice_email" [] _))).
    reflexivity.
Defined.

(** ** The executor *)

Section ExecutorFacts.
Context {E : Type}.
Variable py_repr : pyval -> string.
Variable json_dumps : pyval -> res string.
Variable clock : nat -> Z.
Implicit Types (w : @world E) (run : Run.t) (agent : Agent.t).

(** The key of a new row is not in use. *)
Lemma fresh_run_id_fresh (runs : gmap Z Run.t) :
  runs !! fresh_run_id runs = None.
Proof.
  unfold fresh_run_id.
  assert (H : forall k, is_Some (runs !! k) ->
                        k <= map_fold (fun k _ acc => Z.max k acc) 0 runs).
  { apply (map_fold_weak_ind
             (fun b (m : gmap Z Run.t) => forall k, is_Some (m !! k) -> k <= b)).
    - intros k [x Hx]. by rewrite lookup_empty in Hx.
    - intros i x m b _ IH k Hk.
      destruct (decide (i = k)) as [->|Hne]; [lia |].
      rewrite lookup_insert_ne in Hk by done. specialize (IH k Hk). lia. }
  destruct (runs !! _) eqn:Hl; [| done].
  specialize (H _ (mk_is_Some _ _ Hl)). lia.
Qed.

(** What the [try] block and its handler do to the record: the agent and
    the times stay, the status stays or becomes terminal; the state away
    from the plugins stays. *)
Lemma try_run_agent_spec agent run w r run' w' :
  try_run_agent py_repr json_dumps agent run w = (r, run', w') ->
  same_store w w' /\
  Run.agent_id run' = Run.agent_id run /\
  Run.started_at run' = Run.started_at run /\
  Run.finished_at run' = Run.finished_at run /\
  (Run.status run' = Run.status run \/ terminal (Run.status run')).
Proof.
  unfold try_run_agent, except_Exception, terminal.
  destruct (run_agent _ _ _ w) as [[result|exc] w1] eqn:Hrun;
    apply run_agent_same_store in Hrun.
  - destruct (json_dumps result) as [text|exc].
    + intros [= <- <- <-]. simpl. tauto.
    + destruct (exn_is_Exception exc); intros [= <- <- <-]; simpl; tauto.
  - destruct (exn_is_Exception exc); intros [= <- <- <-]; simpl; tauto.
Qed.

(** When the dispatched behaviour raises an exception that derives from
    [Exception], the handler writes it into the record. *)
Lemma try_run_agent_raises agent run w exc w' :
  run_agent py_repr (Agent.kind agent) (Agent.config agent) w = (Raise exc, w') ->
  exn_is_Exception exc = true ->
  try_run_agent py_repr json_dumps agent run w
  = (Raise exc,
     Run.with_logs (exn_type_name exc +:+ ": " +:+ exn_str py_repr exc)
       (Run.with_status "error" run),
     w').
Proof.
  intros Hrun Hexc. unfold try_run_agent, except_Exception.
  by rewrite Hrun, Hexc.
Qed.

Lemma finally_commit_eq (run_id : Z) (r : res pyval) run w :
  finally_commit clock run_id (r, run, w)
  = (r, session_commit run_id
          (Run.with_finished_at (Some (clock (w_now_calls w))) run)
          (with_now_calls (S (w_now_calls w)) w)).
Proof. reflexivity. Qed.

(** The world in which [execute_agent_by_id] dispatches the agent, and
    the record it has flushed by then. *)
Lemma execute_agent_by_id_present (agent_id : Z) agent w :
  w_agents w !! agent_id = Some agent ->
  let run0 := {| Run.agent_id := Agent.id agent; Run.status := "running";
                 Run.started_at := Some (clock (w_now_calls w));
                 Run.finished_at := None; Run.logs := "" |} in
  let run_id := fresh_run_id (w_runs w) in
  let w1 := snd (session_add_flush run0 (snd (now clock w))) in
  execute_agent_by_id py_repr json_dumps clock agent_id w
  = finally_commit clock run_id (try_run_agent py_repr json_dumps agent run0 w1).
Proof. intros H. unfold execute_agent_by_id. by rewrite H. Qed.

Lemma execute_run_present (run_id : Z) run agent w :
  w_runs w !! run_id = Some run ->
  w_agents w !! Run.agent_id run = Some agent ->
  let run0 := Run.with_started_at (Some (clock (w_now_calls w)))
                (Run.with_status "running" run) in
  let w1 := session_flush run_id run0 (snd (now clock w)) in
  execute_run py_repr json_dumps clock run_id w
  = finally_commit clock run_id (try_run_agent py_repr json_dumps agent run0 w1).
Proof. intros H1 H2. unfold execute_run. by rewrite H1, H2. Qed.

(** The three early returns of the executor. *)
Lemma not_found_eq (n : Z) w :
  (w_agents w !! n = None ->
   execute_agent_by_id py_repr json_dumps clock n w
   = (Ok (not_found "Agent" n), w)) /\
  (w_runs w !! n = None ->
   execute_run py_repr json_dumps clock n w = (Ok (not_found "Run" n), w)) /\
  (forall run,
     w_runs w !! n = Some run ->
     w_agents w !! Run.agent_id run = None ->
     execute_run py_repr json_dumps clock n w
     = (Ok (not_found "Agent" (Run.agent_id run)), w)).
Proof.
  split; [| split].
  - intros H. unfold execute_agent_by_id. by rewrite H.
  - intros H. unfold execute_run. by rewrite H.
  - intros run H1 H2. unfold execute_run. by rewrite H1, H2.
Qed.

(** C3. For an agent id with no stored agent, [execute_agent_by_id]
    returns the document [{"error": "Agent <id> not found"}]; for a run id
    with no stored run, or whose agent is not stored, [execute_run] returns
    the like document. In the three cases nothing is raised and the state
    is the one before the call: no record is made or changed, nothing is
    flushed or committed. *)
Theorem not_found_is_reported (n : Z) w :
  (w_agents w !! n = None ->
   execute_agent_by_id py_repr json_dumps clock n w
   = (Ok (VDict [("error", VStr ("Agent " +:+ str_of_int n +:+ " not found"))]),
      w)) /\
  (w_runs w !! n = None ->
   execute_run py_repr json_dumps clock n w
   = (Ok (VDict [("error", VStr ("Run " +:+ str_of_int n +:+ " not found"))]),
      w)) /\
  (forall run,
     w_runs w !! n = Some run ->
     w_agents w !! Run.agent_id run = None ->
     execute_run py_repr json_dumps clock n w
     = (Ok (VDict [("error",
                    VStr ("Agent " +:+ str_of_int (Run.agent_id run)
                          +:+ " not found"))]),
        w)).
Proof.
  split; [| split].
  - intros H. unfold execute_agent_by_id, not_found. by rewrite H.
  - intros H. unfold execute_run, not_found. by rewrite H.
  - intros run H1 H2. unfold execute_run, not_found. by rewrite H1, H2.
Qed.

(** C1, as the code has it. When the dispatched behaviour raises an
    exception whose class derives from [Exception], both entry points
    commit the record with the status [error], the type and the message of
    the exception as its logs and the time it finished, and then let the
    same exception out: the commit is the last thing the store has seen. *)
Theorem exception_is_recorded w (exc : exn) (w2 : @world E) :
  exn_is_Exception exc = true ->
  (forall (agent_id : Z) agent,
     w_agents w !! agent_id = Some agent ->
     let run0 := {| Run.agent_id := Agent.id agent; Run.status := "running";
                    Run.started_at := Some (clock (w_now_calls w));
                    Run.finished_at := None; Run.logs := "" |} in
     let run_id := fresh_run_id (w_runs w) in
     let final := {| Run.agent_id := Agent.id agent; Run.status := "error";
                     Run.started_at := Some (clock (w_now_calls w));
                     Run.finished_at := Some (clock (S (w_now_calls w)));
                     Run.logs := exn_type_name exc +:+ ": "
                                 +:+ exn_str py_repr exc |} in
     run_agent py_repr (Agent.kind agent) (Agent.config agent)
       (snd (session_add_flush run0 (snd (now clock w)))) = (Raise exc, w2) ->
     exists w',
       execute_agent_by_id py_repr json_dumps clock agent_id w = (Raise exc, w') /\
       w_runs w' !! run_id = Some final /\
       last (w_events w') = Some (Committed run_id final)) /\
  (forall (run_id : Z) run agent,
     w_runs w !! run_id = Some run ->
     w_agents w !! Run.agent_id run = Some agent ->
     let run0 := Run.with_started_at (Some (clock (w_now_calls w)))
                   (Run.with_status "running" run) in
     let final := {| Run.agent_id := Run.agent_id run; Run.status := "error";
                     Run.started_at := Some (clock (w_now_calls w));
                     Run.finished_at := Some (clock (S (w_now_calls w)));
                     Run.logs := exn_type_name exc +:+ ": "
                                 +:+ exn_str py_repr exc |} in
     run_agent py_repr (Agent.kind agent) (Agent.config agent)
       (session_flush run_id run0 (snd (now clock w))) = (Raise exc, w2) ->
     exists w',
       execute_run py_repr json_dumps clock run_id w = (Raise exc, w') /\
       w_runs w' !! run_id = Some final /\
       last (w_events w') = Some (Committed run_id final)).
Proof.
  intros Hexc. split.
  - intros agent_id agent Hagent run0 run_id final Hrun.
    rewrite (execute_agent_by_id_present _ _ _ Hagent).
    rewrite (try_run_agent_raises _ _ _ _ _ Hrun Hexc), finally_commit_eq.
    apply run_agent_same_store in Hrun as (_ & _ & _ & Hn & _).
    simpl in Hn. rewrite Hn.
    eexists. split; [reflexivity |]. simpl. split.
    + by rewrite lookup_insert_eq.
    + by rewrite last_snoc.
  - intros run_id run agent Hr Hagent run0 final Hrun.
    rewrite (execute_run_present _ _ _ _ Hr Hagent).
    rewrite (try_run_agent_raises _ _ _ _ _ Hrun Hexc), finally_commit_eq.
    apply run_agent_same_store in Hrun as (_ & _ & _ & Hn & _).
    simpl in Hn. rewrite Hn.
    eexists. split; [reflexivity |]. simpl. split.
    + by rewrite lookup_insert_eq.
    + by rewrite last_snoc.
Qed.

(** The [finally] block closes the run, whatever the [try] block did. *)
Lemma finally_closes_run (run_id : Z) agent run0 w w1 :
  w_events w1 = w_events w ++ [Flushed run_id run0] ->
  w_runs w1 = w_runs w ->
  w_now_calls w1 = S (w_now_calls w) ->
  Run.status run0 = "running" ->
  Run.started_at run0 = Some (clock (w_now_calls w)) ->
  clock (w_now_calls w) <= clock (S (w_now_calls w)) ->
  closes_run clock w
    (snd (finally_commit clock run_id
            (try_run_agent py_repr json_dumps agent run0 w1)))
    run_id.
Proof.
  intros Hev Hruns Hn Hst Ht0 Hle.
  destruct (try_run_agent py_repr json_dumps agent run0 w1)
    as [[r run'] w2] eqn:Htry.
  apply try_run_agent_spec in Htry
    as ((_ & _ & Hruns2 & Hn2 & Hev2) & _ & Hs & _ & _).
  rewrite finally_commit_eq. simpl.
  exists run0, (Run.with_finished_at (Some (clock (w_now_calls w2))) run').
  simpl. rewrite Hev2, Hev, Hruns2, Hruns, Hn2, Hn, Hs, <- app_assoc.
  by repeat split.
Qed.

Lemma closes_run_ok w w' (run_id : Z) :
  closes_run clock w w' run_id ->
  (forall k r, w_runs w !! k = Some r -> run_ok r) ->
  forall k r, w_runs w' !! k = Some r -> run_ok r.
Proof.
  intros (flushed & final & _ & Hruns & _ & Ht0 & Ht1 & Hle) Hinv k r.
  rewrite Hruns. destruct (decide (run_id = k)) as [->|Hne].
  - rewrite lookup_insert_eq. intros [= <-] _. eauto.
  - rewrite lookup_insert_ne by done. apply Hinv.
Qed.

(** C2. With a clock that does not run backwards, every execution that
    makes or starts a record closes it, whether the behaviour returned or
    raised: the record is flushed as running, then committed once, in its
    final state with the time it finished, not before the time it started;
    the committed state is the row of the table. A new record takes a key
    that was free. Every record of the table that has a terminal status has
    both times in order, when that held before the call. *)
Theorem run_is_closed_once w :
  (forall i j : nat, (i <= j)%nat -> clock i <= clock j) ->
  (forall (agent_id : Z) agent,
     w_agents w !! agent_id = Some agent ->
     w_runs w !! fresh_run_id (w_runs w) = None /\
     closes_run clock w
       (snd (execute_agent_by_id py_repr json_dumps clock agent_id w))
       (fresh_run_id (w_runs w))) /\
  (forall (run_id : Z) run agent,
     w_runs w !! run_id = Some run ->
     w_agents w !! Run.agent_id run = Some agent ->
     closes_run clock w
       (snd (execute_run py_repr json_dumps clock run_id w)) run_id) /\
  (forall n : Z,
     (forall k r, w_runs w !! k = Some r -> run_ok r) ->
     (forall k r,
        w_runs (snd (execute_agent_by_id py_repr json_dumps clock n w)) !! k
          = Some r -> run_ok r) /\
     (forall k r,
        w_runs (snd (execute_run py_repr json_dumps clock n w)) !! k
          = Some r -> run_ok r)).
Proof.
  intros Hclock.
  assert (Hle : clock (w_now_calls w) <= clock (S (w_now_calls w)))
    by (apply Hclock; lia).
  assert (HA : forall (agent_id : Z) agent,
             w_agents w !! agent_id = Some agent ->
             closes_run clock w
               (snd (execute_agent_by_id py_repr json_dumps clock agent_id w))
               (fresh_run_id (w_runs w))).
  { intros agent_id agent Hagent.
    rewrite (execute_agent_by_id_present _ _ _ Hagent).
    by apply finally_closes_run. }
  assert (HR : forall (run_id : Z) run agent,
             w_runs w !! run_id = Some run ->
             w_agents w !! Run.agent_id run = Some agent ->
             closes_run clock w
               (snd (execute_run py_repr json_dumps clock run_id w)) run_id).
  { intros run_id run agent Hr Hagent.
    rewrite (execute_run_present _ _ _ _ Hr Hagent).
    by apply finally_closes_run. }
  split; [| split].
  - intros agent_id agent Hagent. split; [apply fresh_run_id_fresh | eauto].
  - exact HR.
  - intros n Hinv. split.
    + destruct (w_agents w !! n) as [agent|] eqn:Hagent.
      * eapply closes_run_ok; eauto.
      * rewrite (proj1 (not_found_eq n w)) by done. exact Hinv.
    + destruct (w_runs w !! n) as [run|] eqn:Hr.
      * destruct (w_agents w !! Run.agent_id run) as [agent|] eqn:Hagent.
        -- eapply closes_run_ok; eauto.
        -- rewrite (proj2 (proj2 (not_found_eq n w)) run) by done. exact Hinv.
      * rewrite (proj1 (proj2 (not_found_eq n w))) by done. exact Hinv.
Qed.

End ExecutorFacts.

(** ** The scheduler *)

Section ListFacts.
Context {A : Type}.
Implicit Types (f g : A -> bool) (l : list A).

Lemma find_none_filter f l : List.find f l = None -> List.filter f l = [].
Proof.
  induction l as [|x l IH]; simpl; [done |].
  destruct (f x); [done | auto].
Qed.

Lemma filter_nil_find f l : List.filter f l = [] -> List.find f l = None.
Proof.
  induction l as [|x l IH]; simpl; [done |].
  destruct (f x); [done | auto].
Qed.

Lemma find_some_remove_first f l x :
  List.find f l = Some x -> exists l', Sched.remove_first f l = Some l'.
Proof.
  induction l as [|y l IH]; simpl; [done |].
  destruct (f y); [eauto |].
  intros H. destruct (IH H) as [l' ->]. eauto.
Qed.

(** Removing takes one accepted entry away. *)
Lemma remove_first_count f l l' :
  Sched.remove_first f l = Some l' ->
  length (List.filter f l) = S (length (List.filter f l')).
Proof.
  revert l'. induction l as [|y l IH]; simpl; intros l'; [done |].
  destruct (f y) eqn:Hy.
  - intros [= <-]. done.
  - destruct (Sched.remove_first f l) as [r|]; [| done].
    intros [= <-]. simpl. rewrite Hy. auto.
Qed.

(** Removing leaves the entries of another test alone. *)
Lemma remove_first_other f g l l' :
  (forall x, f x = true -> g x = false) ->
  Sched.remove_first f l = Some l' ->
  List.filter g l' = List.filter g l.
Proof.
  intros Hfg. revert l'. induction l as [|y l IH]; simpl; intros l'; [done |].
  destruct (f y) eqn:Hy.
  - intros [= <-]. by rewrite (Hfg _ Hy).
  - destruct (Sched.remove_first f l) as [r|]; [| done].
    intros [= <-]. simpl. by rewrite (IH r).
Qed.

End ListFacts.

Lemma remove_first_fst {A B} (f : A -> bool) (l l' : list (A * B)) :
  Sched.remove_first (fun p => f (fst p)) l = Some l' ->
  Sched.remove_first f (map fst l) = Some (map fst l').
Proof.
  revert l'. induction l as [|y l IH]; simpl; intros l'; [done |].
  destruct (f (fst y)).
  - by intros [= <-].
  - destruct (Sched.remove_first _ l) as [r|]; [| done].
    intros [= <-]. by rewrite (IH r).
Qed.

Lemma find_fst_remove_first {A B} (f : A -> bool) (l : list (A * B)) x :
  List.find f (map fst l) = Some x ->
  exists l', Sched.remove_first (fun p => f (fst p)) l = Some l'.
Proof.
  induction l as [|y l IH]; simpl; [done |].
  destruct (f (fst y)); [eauto |].
  intros H. destruct (IH H) as [l' ->]. eauto.
Qed.

Section SchedulerFacts.
Context {Trigger : Type}.
Variable IntervalTrigger : Z -> res Trigger.
Implicit Types (self : @Sched.AgentScheduler Trigger) (j : @Sched.Job Trigger)
  (l : list (@Sched.Job Trigger)) (trig : Trigger).

Lemma has_id_self (agent_id : Z) trig :
  Sched.has_id (Sched.job_id_of agent_id) (timer agent_id trig) = true.
Proof. apply String.eqb_refl. Qed.

Lemma has_id_other (id id' : string) j :
  id <> id' -> Sched.has_id id j = true -> Sched.has_id id' j = false.
Proof.
  unfold Sched.has_id. intros Hne H. apply String.eqb_eq in H.
  apply String.eqb_neq. congruence.
Qed.

(** Two agents never share a job id. *)
Lemma job_id_of_inj (a b : Z) : Sched.job_id_of a = Sched.job_id_of b -> a = b.
Proof.
  unfold Sched.job_id_of, str_of_int. simpl. intros [= H].
  by apply (inj pretty).
Qed.

Lemma sched_wf_init : sched_wf (Trigger:=Trigger) Sched.AgentScheduler_init.
Proof. split; [intros id; simpl; lia | done]. Qed.

(** Taking the timer of an id out of a list that holds at most one. *)
Lemma timer_taken_out (id : string) l l0 :
  (length (List.filter (Sched.has_id id) l) <= 1)%nat ->
  (List.find (Sched.has_id id) l = None /\ l0 = l) \/
  Sched.remove_first (Sched.has_id id) l = Some l0 ->
  List.filter (Sched.has_id id) l0 = [] /\
  forall id', id' <> id ->
    List.filter (Sched.has_id id') l0 = List.filter (Sched.has_id id') l.
Proof.
  intros Hcount [[Hnone ->]|Hrem].
  - split; [by apply find_none_filter | done].
  - split.
    + apply remove_first_count in Hrem.
      destruct (List.filter (Sched.has_id id) l0); [done | simpl in *; lia].
    + intros id' Hne. eapply remove_first_other; [| exact Hrem].
      intros j. by apply has_id_other.
Qed.

(** The list with the new timer behind it. *)
Lemma timer_put_in (agent_id : Z) trig l l0 :
  (forall id, (length (List.filter (Sched.has_id id) l) <= 1)%nat) ->
  List.filter (Sched.has_id (Sched.job_id_of agent_id)) l0 = [] ->
  (forall id', id' <> Sched.job_id_of agent_id ->
     List.filter (Sched.has_id id') l0 = List.filter (Sched.has_id id') l) ->
  List.filter (Sched.has_id (Sched.job_id_of agent_id))
    (l0 ++ [timer agent_id trig]) = [timer agent_id trig] /\
  (forall id', id' <> Sched.job_id_of agent_id ->
     List.filter (Sched.has_id id') (l0 ++ [timer agent_id trig])
     = List.filter (Sched.has_id id') l) /\
  (forall id,
     (length (List.filter (Sched.has_id id) (l0 ++ [timer agent_id trig]))
      <= 1)%nat).
Proof.
  intros Hcount Hout Hother.
  assert (Hnew : forall id', id' <> Sched.job_id_of agent_id ->
            List.filter (Sched.has_id id') (l0 ++ [timer agent_id trig])
            = List.filter (Sched.has_id id') l).
  { intros id' Hne. rewrite List.filter_app, (Hother id' Hne). simpl.
    rewrite (has_id_other (Sched.job_id_of agent_id) id'); auto using has_id_self.
    apply app_nil_r. }
  split; [| split; [exact Hnew |]].
  - rewrite List.filter_app, Hout. simpl. by rewrite has_id_self.
  - intros id. destruct (decide (id = Sched.job_id_of agent_id)) as [->|Hne].
    + rewrite List.filter_app, Hout. simpl. by rewrite has_id_self.
    + rewrite (Hnew id Hne). apply Hcount.
Qed.

(** The first half of [add_or_update_job] on a scheduler in order: it
    raises nothing, the id has no timer behind it, the timers of the other
    ids are as before and the scheduler is as it was, running or not. *)
Lemma remove_existing_spec self (id : string) :
  sched_wf self ->
  exists s0,
    Sched.remove_existing (Sched.scheduler self) id = (Ok tt, s0) /\
    Sched.running s0 = Sched.running (Sched.scheduler self) /\
    (if Sched.running s0 then Sched._pending_jobs s0 = []
     else Sched._jobstore s0 = []) /\
    List.filter (Sched.has_id id) (Sched.timers {| Sched.scheduler := s0 |}) = [] /\
    (forall id', id' <> id ->
       List.filter (Sched.has_id id') (Sched.timers {| Sched.scheduler := s0 |})
       = List.filter (Sched.has_id id') (Sched.timers self)).
Proof.
  destruct self as [[running pending store]].
  unfold sched_wf, Sched.timers, Sched.remove_existing, Sched.get_job,
    Sched.remove_job. simpl.
  intros [Hcount Hmode]. destruct running; subst; simpl in *.
  - destruct (List.find (Sched.has_id id) store) as [j|] eqn:Hf.
    + destruct (find_some_remove_first _ _ _ Hf) as [s Hs]. rewrite Hs.
      destruct (timer_taken_out id store s (Hcount id) (or_intror Hs))
        as [Hout Hother].
      eexists. split; [reflexivity |]. simpl. auto.
    + destruct (timer_taken_out id store store (Hcount id)
                  (or_introl (conj Hf eq_refl))) as [Hout Hother].
      eexists. split; [reflexivity |]. simpl. auto.
  - rewrite app_nil_r in Hcount.
    destruct (List.find (Sched.has_id id) (map fst pending)) as [j|] eqn:Hf.
    + destruct (find_fst_remove_first _ _ _ Hf) as [p Hp]. rewrite Hp.
      apply remove_first_fst in Hp.
      destruct (timer_taken_out id (map fst pending) (map fst p) (Hcount id)
                  (or_intror Hp)) as [Hout Hother].
      eexists. split; [reflexivity |]. simpl. rewrite !app_nil_r. auto.
    + destruct (timer_taken_out id (map fst pending) (map fst pending)
                  (Hcount id) (or_introl (conj Hf eq_refl))) as [Hout Hother].
      eexists. split; [reflexivity |]. simpl. rewrite !app_nil_r. auto.
Qed.

(** One call of [add_or_update_job] on a scheduler in order, with an
    interval the library makes a trigger of: it raises nothing, the agent
    has the one timer of the call, the timers of the other ids are as
    before and the scheduler is in order again. *)
Lemma add_or_update_job_spec self (agent_id seconds : Z) trig :
  sched_wf self ->
  IntervalTrigger seconds = Ok trig ->
  exists self',
    Sched.add_or_update_job IntervalTrigger self agent_id seconds = (Ok tt, self') /\
    Sched.timers_of self' agent_id = [timer agent_id trig] /\
    (forall id', id' <> Sched.job_id_of agent_id ->
       List.filter (Sched.has_id id') (Sched.timers self')
       = List.filter (Sched.has_id id') (Sched.timers self)) /\
    sched_wf self' /\
    Sched.running (Sched.scheduler self') = Sched.running (Sched.scheduler self).
Proof.
  intros Hwf Htrig.
  destruct (remove_existing_spec self (Sched.job_id_of agent_id) Hwf)
    as (s0 & Hrem & Hrun & Hmode & Hout & Hother).
  unfold Sched.add_or_update_job. rewrite Hrem, Htrig.
  fold (timer agent_id trig).
  destruct Hwf as [Hcount _].
  destruct s0 as [running0 pending0 store0].
  unfold Sched.timers_of, Sched.timers, sched_wf, Sched.add_job,
    Sched.real_add_job in *.
  simpl in *. destruct running0; subst; simpl in *.
  - rewrite (filter_nil_find _ _ Hout).
    destruct (timer_put_in agent_id trig _ store0 Hcount Hout Hother)
      as (H1 & H2 & H3).
    eexists. split; [reflexivity |]. simpl. auto.
  - rewrite app_nil_r in Hout.
    assert (Hother' : forall id', id' <> Sched.job_id_of agent_id ->
              List.filter (Sched.has_id id') (map fst pending0)
              = List.filter (Sched.has_id id') (Sched.timers self))
      by (intros id' Hne; unfold Sched.timers; rewrite <- (Hother id' Hne);
          by rewrite app_nil_r).
    destruct (timer_put_in agent_id trig _ (map fst pending0) Hcount Hout
                Hother') as (H1 & H2 & H3).
    eexists. split; [reflexivity |]. unfold Sched.timers. simpl.
    rewrite !app_nil_r, map_app. simpl. auto.
Qed.

(** The same call with an interval the library refuses: the exception of
    the library is raised after the timer of the agent has been taken out,
    so the agent is left without a timer. *)
Lemma add_or_update_job_refused self (agent_id seconds : Z) (exc : exn) :
  sched_wf self ->
  IntervalTrigger seconds = Raise exc ->
  exists self',
    Sched.add_or_update_job IntervalTrigger self agent_id seconds
    = (Raise exc, self') /\
    Sched.timers_of self' agent_id = [] /\
    (forall id', id' <> Sched.job_id_of agent_id ->
       List.filter (Sched.has_id id') (Sched.timers self')
       = List.filter (Sched.has_id id') (Sched.timers self)) /\
    sched_wf self'.
Proof.
  intros Hwf Htrig.
  destruct (remove_existing_spec self (Sched.job_id_of agent_id) Hwf)
    as (s0 & Hrem & Hrun & Hmode & Hout & Hother).
  unfold Sched.add_or_update_job. rewrite Hrem, Htrig.
  eexists. split; [reflexivity |]. split; [exact Hout |].
  split; [exact Hother |]. split; [| exact Hmode].
  intros id. destruct (decide (id = Sched.job_id_of agent_id)) as [->|Hne].
  - rewrite Hout. simpl. lia.
  - rewrite (Hother id Hne). apply Hwf.
Qed.

(** Starting moves the pending timers to the store as they are. *)
Lemma add_pending_all (pending : list (@Sched.Job Trigger * bool)) :
  forall store : list (@Sched.Job Trigger),
    (forall id,
       (length (List.filter (Sched.has_id id) (store ++ map fst pending)) <= 1)%nat) ->
    Sched.add_pending store pending = (Ok tt, store ++ map fst pending).
Proof.
  induction pending as [|[job re] rest IH]; intros store Hcount; simpl.
  - by rewrite app_nil_r.
  - unfold Sched.real_add_job.
    assert (Hnone : List.filter (Sched.has_id (Sched.job_id job)) store = []).
    { specialize (Hcount (Sched.job_id job)).
      rewrite List.filter_app, length_app in Hcount. simpl in Hcount.
      unfold Sched.has_id at 2 in Hcount. rewrite String.eqb_refl in Hcount.
      simpl in Hcount.
      destruct (List.filter _ store); [done | simpl in Hcount; lia]. }
    rewrite (filter_nil_find _ _ Hnone).
    rewrite IH; rewrite <- app_assoc; [done | exact Hcount].
Qed.

Lemma start_spec self :
  sched_wf self ->
  Sched.running (Sched.scheduler self) = false ->
  exists self',
    Sched.start self = (Ok tt, self') /\
    Sched.running (Sched.scheduler self') = true /\
    Sched.timers self' = Sched.timers self /\
    sched_wf self'.
Proof.
  destruct self as [[running pending store]]. simpl.
  unfold sched_wf, Sched.timers. simpl.
  intros [Hcount Hmode] ->. subst store. rewrite app_nil_r in Hcount.
  unfold Sched.start, Sched.scheduler_start. simpl.
  rewrite add_pending_all by exact Hcount.
  eexists. split; [reflexivity |]. simpl. by rewrite app_nil_r.
Qed.


End SchedulerFacts.



(** The same on a running scheduler: the store holds the one timer. *)
Example replace_while_running :
  match Sched.add_or_update_job Sample.IntervalTrigger
          Sched.AgentScheduler_init 5 60 with
  | (Ok _, self1) =>
      match Sched.start self1 with
      | (Ok _, self2) =>
          match Sched.add_or_update_job Sample.IntervalTrigger self2 5 30 with
          | (Ok _, self3) => Sched.timers self3 = [timer 5 30]
          | (Raise _, _) => False
          end
      | (Raise _, _) => False
      end
  | (Raise _, _) => False
  end.
Proof. vm_compute; reflexivity. Qed.
(** ** The executor on the sample data *)

(** The witness of C3: no agent 7, no run 9, and a run whose agent is
    gone. *)
Lemma not_found_is_reported_witness :
  execute_agent_by_id Sample.repr Sample.json_dumps Sample.clock 7
    (Sample.process (Sample.registry Sample.messages) "invoice_email")
  = (Ok (VDict [("error", VStr "Agent 7 not found")]),
     Sample.process (Sample.registry Sample.messages) "invoice_email") /\
  execute_run Sample.repr Sample.json_dumps Sample.clock 9
    (Sample.process (Sample.registry Sample.messages) "invoice_email")
  = (Ok (VDict [("error", VStr "Run 9 not found")]),
     Sample.process (Sample.registry Sample.messages) "invoice_email") /\
  execute_run Sample.repr Sample.json_dumps Sample.clock 1 Sample.orphan_world
  = (Ok (VDict [("error", VStr "Agent 4 not found")]), Sample.orphan_world).
Proof.
  split; [| split].
  - apply (proj1 (not_found_is_reported Sample.repr Sample.json_dumps
                    Sample.clock 7 _)).
    reflexivity.
  - apply (proj1 (proj2 (not_found_is_reported Sample.repr Sample.json_dumps
                           Sample.clock 9 _))).
    reflexivity.
  - apply (proj2 (proj2 (not_found_is_reported Sample.repr Sample.json_dumps
                           Sample.clock 1 Sample.orphan_world))
             Sample.orphan).
    + reflexivity.
    + reflexivity.
Defined.

(** The counterexample to C1 as the specification words it: the action is
    cancelled while it forwards the first invoice. [CancelledError] is not
    an [Exception], the handler does not take it, and the record that was
    made is committed with the status [running] while the exception goes
    to the caller. The same through [execute_run]. *)
Lemma cancelled_run_stays_running :
  execute_agent_by_id Sample.repr Sample.json_dumps Sample.clock 1
    (Sample.process (Sample.registry_with Sample.invoices3 Sample.cancelled)
       "invoice_email")
  = (Raise (Raised "CancelledError" "" false),
     {| w_registry := Sample.registry_with Sample.invoices3 Sample.cancelled;
        w_ext := 1%nat;
        w_calls := [ActionRun (VStr "email")
                      [("to", VStr "books@example.org");
                       ("subject", VStr "FWD: Invoice #1");
                       ("body", VStr "one")]];
        w_agents := {[ 1 := Sample.agent "invoice_email" ]};
        w_runs := <[ 2 := {| Run.agent_id := 1; Run.status := "running";
                             Run.started_at := Some 1700000000;
                             Run.finished_at := Some 1700000001;
                             Run.logs := "" |} ]> {[ 1 := Sample.queued ]};
        w_now_calls := 2;
        w_events := [Flushed 2 {| Run.agent_id := 1; Run.status := "running";
                                  Run.started_at := Some 1700000000;
                                  Run.finished_at := None; Run.logs := "" |};
                     Committed 2 {| Run.agent_id := 1; Run.status := "running";
                                    Run.started_at := Some 1700000000;
                                    Run.finished_at := Some 1700000001;
                                    Run.logs := "" |}] |}) /\
  (exists run,
     w_runs (snd (execute_run Sample.repr Sample.json_dumps Sample.clock 1
                    (Sample.process
                       (Sample.registry_with Sample.invoices3 Sample.cancelled)
                       "invoice_email"))) !! 1 = Some run /\
     Run.status run = "running" /\ Run.status run <> "error").
Proof.
  split; [vm_compute; reflexivity |].
  eexists. split; [vm_compute; reflexivity |].
  split; [reflexivity | discriminate].
Qed.

(** The witness of C1 as amended: the action fails on the second of three
    invoices with a [RuntimeError]. *)
Lemma exception_is_recorded_witness :
  (exists w',
     execute_agent_by_id Sample.repr Sample.json_dumps Sample.clock 1
       (Sample.process (Sample.registry_with Sample.invoices3 Sample.flaky)
          "invoice_email")
     = (Raise (Raised "RuntimeError" "mail server down" true), w') /\
     w_runs w' !! 2
     = Some {| Run.agent_id := 1; Run.status := "error";
               Run.started_at := Some 1700000000;
               Run.finished_at := Some 1700000001;
               Run.logs := "RuntimeError: mail server down" |} /\
     length (w_calls w') = 2%nat) /\
  (exists w',
     execute_run Sample.repr Sample.json_dumps Sample.clock 1
       (Sample.process (Sample.registry_with Sample.invoices3 Sample.flaky)
          "invoice_email")
     = (Raise (Raised "RuntimeError" "mail server down" true), w') /\
     w_runs w' !! 1
     = Some {| Run.agent_id := 1; Run.status := "error";
               Run.started_at := Some 1700000000;
               Run.finished_at := Some 1700000001;
               Run.logs := "RuntimeError: mail server down" |}).
Proof.
  pose (W := Sample.process (Sample.registry_with Sample.invoices3 Sample.flaky)
               "invoice_email").
  pose (exc := Raised "RuntimeError" "mail server down" true).
  assert (Hid : fresh_run_id (w_runs W) = 2) by (vm_compute; reflexivity).
  split.
  - pose (w1 := snd (session_add_flush
                       {| Run.agent_id := Agent.id (Sample.agent "invoice_email");
                          Run.status := "running";
                          Run.started_at := Some (Sample.clock (w_now_calls W));
                          Run.finished_at := None; Run.logs := "" |}
                       (snd (now Sample.clock W)))).
    pose (w2 := snd (run_agent Sample.repr "invoice_email"
                       (Agent.config (Sample.agent "invoice_email")) w1)).
    destruct (proj1 (exception_is_recorded Sample.repr Sample.json_dumps
                       Sample.clock W exc w2 eq_refl)
                1 (Sample.agent "invoice_email"))
      as (w' & Hrun & Hrow & _).
    + vm_compute; reflexivity.
    + vm_compute; reflexivity.
    + exists w'. split; [exact Hrun |]. split.
      * rewrite Hid in Hrow. exact Hrow.
      * replace w' with (snd (execute_agent_by_id Sample.repr Sample.json_dumps
                                Sample.clock 1 W)) by (by rewrite Hrun).
        vm_compute; reflexivity.
  - pose (w1 := session_flush 1
                  (Run.with_started_at (Some (Sample.clock (w_now_calls W)))
                     (Run.with_status "running" Sample.queued))
                  (snd (now Sample.clock W))).
    pose (w2 := snd (run_agent Sample.repr "invoice_email"
                       (Agent.config (Sample.agent "invoice_email")) w1)).
    destruct (proj2 (exception_is_recorded Sample.repr Sample.json_dumps
                       Sample.clock W exc w2 eq_refl)
                1 Sample.queued (Sample.agent "invoice_email"))
      as (w' & Hrun & Hrow & _).
    + vm_compute; reflexivity.
    + vm_compute; reflexivity.
    + vm_compute; reflexivity.
    + exists w'. split; [exact Hrun | exact Hrow].
Defined.

(** The witness of C2: the sample clock ticks forward. *)
Lemma run_is_closed_once_witness :
  closes_run Sample.clock
    (Sample.process (Sample.registry Sample.messages) "invoice_email")
    (snd (execute_agent_by_id Sample.repr Sample.json_dumps Sample.clock 1
            (Sample.process (Sample.registry Sample.messages) "invoice_email")))
    (fresh_run_id
       (w_runs (Sample.process (Sample.registry Sample.messages)
                  "invoice_email"))) /\
  closes_run Sample.clock
    (Sample.process (Sample.registry_with Sample.invoices3 Sample.flaky)
       "invoice_email")
    (snd (execute_run Sample.repr Sample.json_dumps Sample.clock 1
            (Sample.process (Sample.registry_with Sample.invoices3 Sample.flaky)
               "invoice_email")))
    1.
Proof.
  assert (Hclock : forall i j : nat,
             (i <= j)%nat -> Sample.clock i <= Sample.clock j)
    by (intros i j Hij; unfold Sample.clock; lia).
  split.
  - refine (proj2 (proj1 (run_is_closed_once Sample.repr Sample.json_dumps
                            Sample.clock
                            (Sample.process (Sample.registry Sample.messages)
                               "invoice_email") Hclock)
                     1 (Sample.agent "invoice_email") _)).
    vm_compute; reflexivity.
  - refine (proj1 (proj2 (run_is_closed_once Sample.repr Sample.json_dumps
                            Sample.clock
                            (Sample.process
                               (Sample.registry_with Sample.invoices3 Sample.flaky)
                               "invoice_email") Hclock))
              1 Sample.queued (Sample.agent "invoice_email") _ _).
    + vm_compute; reflexivity.
    + vm_compute; reflexivity.
Defined.

(** * Further properties of the code *)

(** ** Registration and the shipped plugins *)

Section MoreRegistryFacts.
Context {E : Type}.
Implicit Types (r : @Registry E) (e : E).

(** X1. A registration touches one name of one kind: registering a
    connector changes no lookup of an action and no lookup of a connector
    under another name, and the same holds with the two kinds exchanged. *)
Theorem registration_is_local r (name other : string) (key : pyval)
    (c : P (@Connector E)) (a : P (@Action E)) e :
  action (register_connector r name c) key e = action r key e /\
  connector (register_action r name a) key e = connector r key e /\
  (name <> other ->
   connector (register_connector r name c) (VStr other) e
   = connector r (VStr other) e /\
   action (register_action r name a) (VStr other) e
   = action r (VStr other) e).
Proof.
  split; [done |]. split; [done |].
  intros Hne. split.
  - by apply register_connector_other.
  - by apply register_action_other.
Qed.

(** X2. After [register_plugins] the names [mock_email], [email] and [log]
    resolve to the shipped connector over no message and to the two shipped
    actions, whatever was registered under them before; every other name
    resolves as before; and a second call changes nothing. *)
Theorem register_plugins_installs r e :
  connector (register_plugins r) (VStr "mock_email") e
  = (Ok (MockEmailConnector None), e) /\
  action (register_plugins r) (VStr "email") e = (Ok EmailAction, e) /\
  action (register_plugins r) (VStr "log") e = (Ok LogAction, e) /\
  (forall other : string,
     other <> "mock_email" ->
     connector (register_plugins r) (VStr other) e = connector r (VStr other) e) /\
  (forall other : string,
     other <> "email" -> other <> "log" ->
     action (register_plugins r) (VStr other) e = action r (VStr other) e) /\
  register_plugins (register_plugins r) = register_plugins r.
Proof.
  unfold register_plugins, register_action, register_connector,
    connector, action, subscript; simpl.
  split; [by rewrite lookup_insert_eq |].
  split; [by rewrite lookup_insert_ne, lookup_insert_eq |].
  split; [by rewrite lookup_insert_eq |].
  split; [intros other H; by rewrite lookup_insert_ne |].
  split; [intros other H1 H2; by rewrite !lookup_insert_ne |].
  f_equal.
  - by rewrite insert_insert_eq.
  - apply map_eq. intros k. rewrite !lookup_insert.
    by repeat case_decide.
Qed.

End MoreRegistryFacts.

(** The witness of X1: a connector registered as [imap] beside the shipped
    plugins. *)
Lemma registration_is_local_witness :
  connector (E:=nat)
    (register_connector (register_plugins Registry_init) "imap"
       (fun e => (Ok (MockEmailConnector (Some Sample.messages)), e)))
    (VStr "mock_email") 0%nat
  = connector (register_plugins Registry_init) (VStr "mock_email") 0%nat /\
  action (E:=nat)
    (register_action (register_plugins Registry_init) "imap"
       (fun e => (Ok LogAction, e)))
    (VStr "mock_email") 0%nat
  = action (register_plugins Registry_init) (VStr "mock_email") 0%nat.
Proof.
  apply (proj2 (proj2 (registration_is_local (register_plugins Registry_init)
                         "imap" "mock_email" VNone
                         (fun e => (Ok (MockEmailConnector (Some Sample.messages)), e))
                         (fun e => (Ok LogAction, e)) 0%nat))).
  discriminate.
Defined.

(** The witness of X2: the name [imap] is nobody's after [register_plugins]. *)
Lemma register_plugins_installs_witness :
  connector (E:=nat) (register_plugins Registry_init) (VStr "imap") 0%nat
  = connector Registry_init (VStr "imap") 0%nat /\
  action (E:=nat) (register_plugins Registry_init) (VStr "imap") 0%nat
  = action Registry_init (VStr "imap") 0%nat.
Proof.
  split.
  - apply (proj1 (proj2 (proj2 (proj2
             (register_plugins_installs (E:=nat) Registry_init 0%nat))))).
    discriminate.
  - apply (proj1 (proj2 (proj2 (proj2 (proj2
             (register_plugins_installs (E:=nat) Registry_init 0%nat)))))).
    + discriminate.
    + discriminate.
Defined.

(** ** The invoice agent: its failures and its plugins *)

Section MoreAgentFacts.
Context {E : Type}.
Variable py_repr : pyval -> string.
Implicit Types (w : @world E) (act : @Action E) (e : E).

Lemma with_ext_same w : with_ext (w_ext w) w = w.
Proof. by destruct w. Qed.

(** The comprehension raises at the first subject that is not a string. *)
Lemma filter_invoices_bad_subject e (messages : list (obj dict))
    (before behind : list dict) (m : dict) (v : pyval) :
  map (fun o => o e) messages = before ++ m :: behind ->
  Forall (fun m => is_Some (subject_of m)) before ->
  dict_get m "subject" (VStr "") = v ->
  (forall s, v <> VStr s) ->
  filter_invoices e messages
  = Raise (AttributeError
             ("'" +:+ py_type_name v +:+ "' object has no attribute 'lower'")).
Proof.
  intros Hmap Hbefore Hv Hbad. revert messages Hmap.
  induction Hbefore as [|m0 before [s Hs] _ IH]; intros [|o messages];
    simpl; try done; intros [= Ho Hmap].
  - unfold is_invoice. rewrite Ho, Hv.
    destruct v; try done. by destruct (Hbad s).
  - unfold is_invoice. rewrite Ho. unfold subject_of in Hs.
    destruct (dict_get m0 "subject" (VStr "")); try discriminate.
    simpl. by rewrite (IH _ Hmap).
Qed.

(** The comprehension over what the mock connector hands out. *)
Lemma filter_invoices_mock e (msgs : list dict) :
  Forall (fun m => is_Some (subject_of m)) msgs ->
  filter_invoices e (map (fun m (_ : E) => m) msgs)
  = Ok (map (fun m _ => m) (List.filter mentions_invoice msgs)).
Proof.
  intros Htyped. rewrite filter_invoices_typed.
  - f_equal. apply (mock_invoices e msgs).
  - by rewrite map_map, map_id.
Qed.

Lemma forward_all_email name (config : dict) (invoices : list dict) :
  forall (acc : list pyval) w,
    is_Ok (fst (forward_all py_repr name EmailAction config
                  (map (fun m (_ : E) => m) invoices) acc w))
    = forallb body_has_len invoices.
Proof.
  induction invoices as [|inv rest IH]; intros acc w; simpl; [done |].
  unfold bind, call_action, plugin.
  destruct (email_action_on_forward py_repr config inv
              (w_ext (with_calls (w_calls w
                        ++ [ActionRun name (forward_kwargs py_repr config inv)]) w)))
    as [Hok _].
  destruct (run EmailAction _ _) as [[v|exc] e'] eqn:Hrun;
    simpl in Hok; rewrite <- Hok; simpl; [apply IH | done].
Qed.

(** The loop stops at the first invoice the action raises on: the action
    has returned on the invoices before it, each in its turn, and raises
    on this one in the state they left. *)
Lemma forward_all_stops name act (config : dict) e0 (before : list (obj dict))
    e e4 :
  forwarded py_repr act config e0 e before e4 ->
  forall (inv : obj dict) (behind : list (obj dict)) (exc : exn) e5
         (acc : list pyval) w,
    w_ext w = e ->
    inv e4 = inv e0 ->
    run act (forward_kwargs py_repr config (inv e0)) e4 = (Raise exc, e5) ->
    exists w',
      forward_all py_repr name act config (before ++ inv :: behind) acc w
      = (Raise exc, w') /\
      w_calls w' = w_calls w
                   ++ map (fun o => ActionRun name
                                      (forward_kwargs py_repr config (o e0)))
                          (before ++ [inv]) /\
      w_ext w' = e5.
Proof.
  induction 1 as [e|e e1 e' o rest r Hsame Hrun _ IH];
    intros inv behind exc e5 acc w Hw Hinv Hfail; simpl; unfold bind.
  - rewrite Hw, Hinv.
    destruct (call_action name act (forward_kwargs py_repr config (inv e0)) w)
      as [r w1] eqn:Hc.
    apply call_action_spec in Hc as (_ & Hc & Hr).
    rewrite Hw, Hfail in Hr. injection Hr as -> Hext.
    by exists w1.
  - rewrite Hw, Hsame.
    destruct (call_action name act (forward_kwargs py_repr config (o e0)) w)
      as [r1 w1] eqn:Hc.
    apply call_action_spec in Hc as (_ & Hc & Hr).
    rewrite Hw, Hrun in Hr. injection Hr as -> Hext.
    destruct (IH inv behind exc e5 (acc ++ [r]) w1 Hext Hinv Hfail)
      as (w' & Hf & Hcalls & Hext').
    exists w'. split; [exact Hf |]. split; [| exact Hext'].
    by rewrite Hcalls, Hc, <- app_assoc.
Qed.

(** X3. When the configured connector is not registered, [run] raises
    [KeyError] with its name and nothing else happens: nothing is fetched,
    no action is looked up or run, the state is the one before. *)
Theorem missing_connector_raises (self : InvoiceEmailAgent) w (name : string) :
  dict_get (self_config self) "connector" (VStr "mock_email") = VStr name ->
  _connectors (w_registry w) !! name = None ->
  InvoiceEmailAgent_run py_repr self w = (Raise (KeyError (VStr name)), w).
Proof.
  intros Hname Hnone.
  unfold InvoiceEmailAgent_run, bind, plugin, connector, subscript.
  rewrite Hname, Hnone. by rewrite with_ext_same.
Qed.

(** X4. The action is looked up after the fetch and before the loop: when
    the configured action is not registered, [run] raises [KeyError] with
    its name once the messages are fetched, whether or not one of them is an
    invoice, and no action is run. *)
Theorem missing_action_raises (self : InvoiceEmailAgent) w conn e1
    (fetched : obj (list (obj dict))) e2 (name : string) :
  connector (w_registry w)
    (dict_get (self_config self) "connector" (VStr "mock_email")) (w_ext w)
  = (Ok conn, e1) ->
  fetch conn [] e1 = (Ok fetched, e2) ->
  Forall (fun m => is_Some (subject_of m)) (messages_in e2 fetched) ->
  dict_get (self_config self) "action" (VStr "email") = VStr name ->
  _actions (w_registry w) !! name = None ->
  InvoiceEmailAgent_run py_repr self w
  = (Raise (KeyError (VStr name)), with_ext e2 w).
Proof.
  intros Hconn Hfetch Htyped Hname Hnone.
  unfold InvoiceEmailAgent_run, bind, lift, plugin.
  rewrite Hconn. simpl. rewrite Hfetch. simpl.
  rewrite (filter_invoices_typed _ _ Htyped), Hname.
  unfold action, subscript. by rewrite Hnone.
Qed.

(** X5. A fetched message whose subject is present and not a string (a
    null subject, say) makes [run] raise [AttributeError], naming the type
    of the subject, before any action is looked up or run, even when the
    message is behind invoices. *)
Theorem bad_subject_raises (self : InvoiceEmailAgent) w conn e1
    (fetched : obj (list (obj dict))) (before behind : list dict) (m : dict)
    (v : pyval) e2 :
  connector (w_registry w)
    (dict_get (self_config self) "connector" (VStr "mock_email")) (w_ext w)
  = (Ok conn, e1) ->
  fetch conn [] e1 = (Ok fetched, e2) ->
  messages_in e2 fetched = before ++ m :: behind ->
  Forall (fun m => is_Some (subject_of m)) before ->
  dict_get m "subject" (VStr "") = v ->
  (forall s, v <> VStr s) ->
  InvoiceEmailAgent_run py_repr self w
  = (Raise (AttributeError
              ("'" +:+ py_type_name v +:+ "' object has no attribute 'lower'")),
     with_ext e2 w).
Proof.
  intros Hconn Hfetch Hlist Hbefore Hv Hbad.
  unfold InvoiceEmailAgent_run, bind, lift, plugin.
  rewrite Hconn. simpl. rewrite Hfetch. simpl.
  by rewrite (filter_invoices_bad_subject _ _ _ _ _ _ Hlist Hbefore Hv Hbad).
Qed.

(** X6. Fail-fast. When the action returns on the first invoices, each in
    its turn, and raises on the next one in the state they left, [run]
    raises that exception; the action has been run on those invoices, the
    failing one last, and on none of the invoices behind it, and the
    outside world is where the failing run left it. *)
Theorem run_stops_at_first_failure (self : InvoiceEmailAgent) w conn e1
    (fetched : obj (list (obj dict))) e2 act e3
    (before behind : list (obj dict)) (inv : obj dict) e4 (exc : exn) e5 :
  let config := self_config self in
  let action_name := dict_get config "action" (VStr "email") in
  connector (w_registry w) (dict_get config "connector" (VStr "mock_email"))
    (w_ext w) = (Ok conn, e1) ->
  fetch conn [] e1 = (Ok fetched, e2) ->
  Forall (fun m => is_Some (subject_of m)) (messages_in e2 fetched) ->
  action (w_registry w) action_name e2 = (Ok act, e3) ->
  invoices_in e2 fetched = before ++ inv :: behind ->
  forwarded py_repr act config e2 e3 before e4 ->
  inv e4 = inv e2 ->
  run act (forward_kwargs py_repr config (inv e2)) e4 = (Raise exc, e5) ->
  exists w',
    InvoiceEmailAgent_run py_repr self w = (Raise exc, w') /\
    w_calls w' = w_calls w
                 ++ map (forwarding_call action_name config)
                        (map (fun o => o e2) (before ++ [inv])) /\
    w_ext w' = e5.
Proof.
  intros config action_name Hconn Hfetch Htyped Hact Hkept Hbefore Hinv Hfail.
  unfold InvoiceEmailAgent_run, bind, lift, plugin.
  fold config. rewrite Hconn. simpl. rewrite Hfetch. simpl.
  rewrite (filter_invoices_typed _ _ Htyped). fold action_name.
  rewrite Hact. fold (invoices_in e2 fetched). rewrite Hkept.
  destruct (forward_all_stops action_name act config e2 before e3 e4 Hbefore
              inv behind exc e5 []
              (with_ext e3 (with_ext e2 (with_ext e1 w))) eq_refl Hinv Hfail)
    as (w' & Hf & Hcalls & Hext).
  rewrite Hf. exists w'. split; [done |]. split; [| exact Hext].
  rewrite Hcalls. simpl. f_equal. rewrite map_map. apply map_ext_in.
  intros o Ho. apply forward_kwargs_call.
  assert (Hin : In o (invoices_in e2 fetched)).
  { rewrite Hkept. apply in_app_iff. apply in_app_iff in Ho as [Ho|Ho].
    - by left.
    - right. destruct Ho as [<-|[]]. by left. }
  apply filter_In in Hin. tauto.
Qed.

(** X7. With the shipped [EmailAction] and a configuration that names no
    connector and no action, [run] returns exactly when the body of every
    invoice has a length (it is absent, or a string, a list or a
    dictionary): one invoice with a null or a numeric body fails the run. *)
Theorem email_run_returns_iff (r0 : @Registry E) (config : dict) w
    (msgs : option (list dict)) :
  "connector" ∉ config.*1 ->
  "action" ∉ config.*1 ->
  w_registry w = scenario_registry r0 msgs ->
  Forall (fun m => is_Some (subject_of m)) (default [] msgs) ->
  is_Ok (fst (InvoiceEmailAgent_run py_repr (InvoiceEmailAgent_init config) w))
  = forallb body_has_len (List.filter mentions_invoice (default [] msgs)).
Proof.
  intros Hc Ha Hreg Htyped.
  unfold InvoiceEmailAgent_run, bind, lift, plugin. simpl.
  rewrite Hreg, (dict_get_absent _ _ _ Hc), (dict_get_absent _ _ _ Ha).
  rewrite scenario_connector. simpl.
  rewrite (filter_invoices_mock _ _ Htyped), Hreg, scenario_action.
  pose proof (forward_all_email (VStr "email") config
                (List.filter mentions_invoice (default [] msgs)) []
                (with_ext (w_ext w) (with_ext (w_ext w) (with_ext (w_ext w) w))))
    as Hloop.
  destruct (forward_all _ _ _ _ _ _ _) as [[results|exc] w'];
    simpl in Hloop; by rewrite <- Hloop.
Qed.

(** X8. With the shipped [LogAction] as the configured action, [run]
    returns the three counts for every list of messages whose subjects are
    strings, whatever their bodies are, and the outside world is as it was. *)
Theorem log_run_returns (r0 : @Registry E) (config : dict) w
    (msgs : option (list dict)) :
  "connector" ∉ config.*1 ->
  dict_get config "action" (VStr "email") = VStr "log" ->
  w_registry w = scenario_registry r0 msgs ->
  Forall (fun m => is_Some (subject_of m)) (default [] msgs) ->
  let kept := List.filter mentions_invoice (default [] msgs) in
  exists w',
    InvoiceEmailAgent_run py_repr (InvoiceEmailAgent_init config) w
    = (Ok (counts (Z.of_nat (length (default [] msgs)))
                  (Z.of_nat (length kept)) (Z.of_nat (length kept))), w') /\
    w_calls w' = w_calls w ++ map (forwarding_call (VStr "log") config) kept.
Proof.
  intros Hc Ha Hreg Htyped kept.
  destruct (scenario_run py_repr r0 config w msgs "log" LogAction Hc Ha Hreg
              (scenario_log_action r0 msgs) Htyped
              (fun e => forwarded_log py_repr config e e _))
    as (w' & Hrun & Hcalls & _).
  exists w'. by rewrite Hrun, Hcalls.
Qed.

(** X9. The mock connector gives its messages again at every fetch and the
    agent keeps no memory of what it forwarded: a second run, right after
    a first one that returned, forwards the same invoices once more and
    returns the same counts. *)
Theorem second_run_forwards_again (r0 : @Registry E) (config : dict) w
    (msgs : option (list dict)) :
  "connector" ∉ config.*1 ->
  "action" ∉ config.*1 ->
  w_registry w = scenario_registry r0 msgs ->
  Forall (fun m => is_Some (subject_of m)) (default [] msgs) ->
  forallb body_has_len (List.filter mentions_invoice (default [] msgs)) = true ->
  let kept := List.filter mentions_invoice (default [] msgs) in
  let result := counts (Z.of_nat (length (default [] msgs)))
                  (Z.of_nat (length kept)) (Z.of_nat (length kept)) in
  exists w1 w2,
    InvoiceEmailAgent_run py_repr (InvoiceEmailAgent_init config) w
    = (Ok result, w1) /\
    InvoiceEmailAgent_run py_repr (InvoiceEmailAgent_init config) w1
    = (Ok result, w2) /\
    w_calls w2 = w_calls w
                 ++ map (forwarding_call (VStr "email") config) kept
                 ++ map (forwarding_call (VStr "email") config) kept.
Proof.
  intros Hc Ha Hreg Htyped Hbodies kept result.
  assert (Hrun : forall w0, w_registry w0 = scenario_registry r0 msgs ->
            exists w',
              InvoiceEmailAgent_run py_repr (InvoiceEmailAgent_init config) w0
              = (Ok result, w') /\
              w_calls w' = w_calls w0
                           ++ map (forwarding_call (VStr "email") config) kept).
  { intros w0 Hreg0.
    destruct (scenario_run py_repr r0 config w0 msgs "email" EmailAction Hc
                (dict_get_absent _ _ _ Ha) Hreg0 (scenario_action r0 msgs)
                Htyped
                (fun e => forwarded_email py_repr config e e _ Hbodies))
      as (w' & Hr & Hcalls & _).
    exists w'. by rewrite Hr, Hcalls. }
  destruct (Hrun w Hreg) as (w1 & Hr1 & Hc1).
  pose proof (agent_run_same_store py_repr _ _ _ _ Hr1) as (Hreg1 & _).
  destruct (Hrun w1 (eq_trans Hreg1 Hreg)) as (w2 & Hr2 & Hc2).
  exists w1, w2. split; [exact Hr1 |]. split; [exact Hr2 |].
  by rewrite Hc2, Hc1, <- app_assoc.
Qed.

End MoreAgentFacts.

(** The witness of X3: the configuration names a connector [imap]. *)
Lemma missing_connector_raises_witness :
  InvoiceEmailAgent_run Sample.repr
    (InvoiceEmailAgent_init [("connector", VStr "imap")])
    (Sample.process (Sample.registry Sample.messages) "invoice_email")
  = (Raise (KeyError (VStr "imap")),
     Sample.process (Sample.registry Sample.messages) "invoice_email").
Proof.
  apply (missing_connector_raises Sample.repr
           (InvoiceEmailAgent_init [("connector", VStr "imap")])
           (Sample.process (Sample.registry Sample.messages) "invoice_email")
           "imap").
  - vm_compute; reflexivity.
  - vm_compute; reflexivity.
Defined.

(** The witness of X4: the configuration names an action [sms] and the
    connector holds no message. *)
Lemma missing_action_raises_witness :
  InvoiceEmailAgent_run Sample.repr
    (InvoiceEmailAgent_init [("action", VStr "sms")])
    (Sample.process (Sample.registry []) "invoice_email")
  = (Raise (KeyError (VStr "sms")),
     with_ext 0%nat (Sample.process (Sample.registry []) "invoice_email")).
Proof.
  apply (missing_action_raises Sample.repr
           (InvoiceEmailAgent_init [("action", VStr "sms")])
           (Sample.process (Sample.registry []) "invoice_email")
           (MockEmailConnector (Some [])) 0%nat (fun _ => []) 0%nat "sms").
  - vm_compute; reflexivity.
  - reflexivity.
  - constructor.
  - vm_compute; reflexivity.
  - vm_compute; reflexivity.
Defined.

(** The witness of X5: a null subject behind an invoice. *)
Lemma bad_subject_raises_witness :
  InvoiceEmailAgent_run Sample.repr (InvoiceEmailAgent_init [])
    (Sample.process (Sample.registry Sample.null_subject) "invoice_email")
  = (Raise (AttributeError "'NoneType' object has no attribute 'lower'"),
     with_ext 0%nat
       (Sample.process (Sample.registry Sample.null_subject) "invoice_email")).
Proof.
  apply (bad_subject_raises Sample.repr (InvoiceEmailAgent_init [])
           (Sample.process (Sample.registry Sample.null_subject) "invoice_email")
           (MockEmailConnector (Some Sample.null_subject)) 0%nat
           (fun _ => map (fun m _ => m) Sample.null_subject)
           [ [("subject", VStr "Invoice #7"); ("body", VStr "seven")] ] []
           [("subject", VNone); ("body", VStr "?")] VNone 0%nat).
  - vm_compute; reflexivity.
  - reflexivity.
  - reflexivity.
  - repeat constructor; by eexists.
  - vm_compute; reflexivity.
  - discriminate.
Defined.

(** The witness of X6: an action that fails the second time it is run, on
    three invoices. The run raises in the call for the second invoice,
    and the third is not forwarded. *)
Lemma run_stops_at_first_failure_witness :
  exists w',
    InvoiceEmailAgent_run Sample.repr
      (InvoiceEmailAgent_init (Agent.config (Sample.agent "invoice_email")))
      (Sample.process (Sample.registry_with Sample.invoices3 Sample.flaky)
         "invoice_email")
    = (Raise (Raised "RuntimeError" "mail server down" true), w') /\
    w_calls w'
    = [ActionRun (VStr "email")
         [("to", VStr "books@example.org");
          ("subject", VStr "FWD: Invoice #1"); ("body", VStr "one")];
       ActionRun (VStr "email")
         [("to", VStr "books@example.org");
          ("subject", VStr "FWD: INVOICE #2"); ("body", VStr "two")]] /\
    w_ext w' = 2%nat.
Proof.
  refine (run_stops_at_first_failure Sample.repr
            (InvoiceEmailAgent_init (Agent.config (Sample.agent "invoice_email")))
            (Sample.process (Sample.registry_with Sample.invoices3 Sample.flaky)
               "invoice_email")
            (MockEmailConnector (Some Sample.invoices3)) 0%nat
            (fun _ => map (fun m _ => m) Sample.invoices3) 0%nat
            Sample.flaky 0%nat
            [fun _ => [("subject", VStr "Invoice #1"); ("body", VStr "one")]]
            [fun _ => [("subject", VStr "your invoice"); ("body", VStr "three")]]
            (fun _ => [("subject", VStr "INVOICE #2"); ("body", VStr "two")])
            1%nat (Raised "RuntimeError" "mail server down" true) 2%nat
            _ _ _ _ _ _ _ _).
  - vm_compute; reflexivity.
  - reflexivity.
  - repeat constructor; by eexists.
  - vm_compute; reflexivity.
  - reflexivity.
  - eapply (forwarded_cons Sample.repr Sample.flaky _ 0%nat 0%nat 1%nat 1%nat
              (fun _ => [("subject", VStr "Invoice #1"); ("body", VStr "one")])
              [] VNone).
    + reflexivity.
    + reflexivity.
    + constructor.
  - reflexivity.
  - reflexivity.
Defined.

(** The witness of X7: three invoices, the second with a null body, fail
    the run. *)
Lemma email_run_returns_iff_witness :
  is_Ok (fst (InvoiceEmailAgent_run Sample.repr (InvoiceEmailAgent_init [])
                (Sample.process (Sample.registry Sample.null_body)
                   "invoice_email")))
  = forallb body_has_len (List.filter mentions_invoice Sample.null_body).
Proof.
  apply (email_run_returns_iff Sample.repr Registry_init []
           (Sample.process (Sample.registry Sample.null_body) "invoice_email")
           (Some Sample.null_body)).
  - apply not_elem_of_nil.
  - apply not_elem_of_nil.
  - reflexivity.
  - repeat constructor; by eexists.
Defined.

(** The witness of X8: the same three invoices through [LogAction]. *)
Lemma log_run_returns_witness :
  exists w',
    InvoiceEmailAgent_run Sample.repr
      (InvoiceEmailAgent_init [("action", VStr "log")])
      (Sample.process (Sample.registry Sample.null_body) "invoice_email")
    = (Ok (counts 3 3 3), w') /\
    length (w_calls w') = 3%nat.
Proof.
  destruct (log_run_returns Sample.repr Registry_init [("action", VStr "log")]
              (Sample.process (Sample.registry Sample.null_body) "invoice_email")
              (Some Sample.null_body))
    as (w' & Hrun & Hcalls).
  - simpl. rewrite list_elem_of_singleton. discriminate.
  - reflexivity.
  - reflexivity.
  - repeat constructor; by eexists.
  - exists w'. split; [exact Hrun |]. by rewrite Hcalls.
Defined.

(** The witness of X9: the sample messages, run twice. *)
Lemma second_run_forwards_again_witness :
  exists w1 w2,
    InvoiceEmailAgent_run Sample.repr (InvoiceEmailAgent_init [])
      (Sample.process (Sample.registry Sample.messages) "invoice_email")
    = (Ok (counts 3 1 1), w1) /\
    InvoiceEmailAgent_run Sample.repr (InvoiceEmailAgent_init []) w1
    = (Ok (counts 3 1 1), w2) /\
    length (w_calls w2) = 2%nat.
Proof.
  destruct (second_run_forwards_again Sample.repr Registry_init []
              (Sample.process (Sample.registry Sample.messages) "invoice_email")
              (Some Sample.messages))
    as (w1 & w2 & H1 & H2 & Hcalls).
  - apply not_elem_of_nil.
  - apply not_elem_of_nil.
  - reflexivity.
  - repeat constructor; by eexists.
  - vm_compute; reflexivity.
  - exists w1, w2. split; [exact H1 |]. split; [exact H2 |]. by rewrite Hcalls.
Defined.
(** ** The executor: the other outcomes, and what it leaves alone *)

Section MoreExecutorFacts.
Context {E : Type}.
Variable py_repr : pyval -> string.
Variable json_dumps : pyval -> res string.
Variable clock : nat -> Z.
Implicit Types (w : @world E) (run : Run.t) (agent : Agent.t).

Lemma try_run_agent_returns agent run w (result : pyval) (text : string) w' :
  run_agent py_repr (Agent.kind agent) (Agent.config agent) w = (Ok result, w') ->
  json_dumps result = Ok text ->
  try_run_agent py_repr json_dumps agent run w
  = (Ok result, Run.with_logs text (Run.with_status "success" run), w').
Proof.
  intros Hrun Hdumps. unfold try_run_agent. by rewrite Hrun, Hdumps.
Qed.

(** What the [finally] block leaves of the state in which the agent was
    dispatched: the registry and the agents, and every row but the one of
    the run, which keeps its agent. *)
Lemma finally_frame (run_id : Z) agent run0 w1 :
  let w' := snd (finally_commit clock run_id
                   (try_run_agent py_repr json_dumps agent run0 w1)) in
  w_registry w' = w_registry w1 /\
  w_agents w' = w_agents w1 /\
  exists final,
    w_runs w' = <[run_id := final]> (w_runs w1) /\
    Run.agent_id final = Run.agent_id run0.
Proof.
  destruct (try_run_agent py_repr json_dumps agent run0 w1)
    as [[r run'] w2] eqn:Htry.
  apply try_run_agent_spec in Htry
    as ((Hreg & Hagents & Hruns & _ & _) & Hid & _).
  rewrite finally_commit_eq. simpl. rewrite Hreg, Hagents, Hruns.
  split; [done |]. split; [done |]. eexists. split; [reflexivity | exact Hid].
Qed.

(** X10. When the dispatched behaviour returns a result that [json.dumps]
    takes, both entry points return that result, after committing the
    record with the status [success], the text of the result as its logs
    and its two times; this holds for a stored run of any status. *)
Theorem success_is_recorded w (result : pyval) (text : string) (w2 : @world E) :
  json_dumps result = Ok text ->
  (forall (agent_id : Z) agent,
     w_agents w !! agent_id = Some agent ->
     let run0 := {| Run.agent_id := Agent.id agent; Run.status := "running";
                    Run.started_at := Some (clock (w_now_calls w));
                    Run.finished_at := None; Run.logs := "" |} in
     let run_id := fresh_run_id (w_runs w) in
     let final := {| Run.agent_id := Agent.id agent; Run.status := "success";
                     Run.started_at := Some (clock (w_now_calls w));
                     Run.finished_at := Some (clock (S (w_now_calls w)));
                     Run.logs := text |} in
     run_agent py_repr (Agent.kind agent) (Agent.config agent)
       (snd (session_add_flush run0 (snd (now clock w)))) = (Ok result, w2) ->
     exists w',
       execute_agent_by_id py_repr json_dumps clock agent_id w = (Ok result, w') /\
       w_runs w' !! run_id = Some final /\
       last (w_events w') = Some (Committed run_id final)) /\
  (forall (run_id : Z) run agent,
     w_runs w !! run_id = Some run ->
     w_agents w !! Run.agent_id run = Some agent ->
     let run0 := Run.with_started_at (Some (clock (w_now_calls w)))
                   (Run.with_status "running" run) in
     let final := {| Run.agent_id := Run.agent_id run; Run.status := "success";
                     Run.started_at := Some (clock (w_now_calls w));
                     Run.finished_at := Some (clock (S (w_now_calls w)));
                     Run.logs := text |} in
     run_agent py_repr (Agent.kind agent) (Agent.config agent)
       (session_flush run_id run0 (snd (now clock w))) = (Ok result, w2) ->
     exists w',
       execute_run py_repr json_dumps clock run_id w = (Ok result, w') /\
       w_runs w' !! run_id = Some final /\
       last (w_events w') = Some (Committed run_id final)).
Proof.
  intros Hdumps. split.
  - intros agent_id agent Hagent run0 run_id final Hrun.
    rewrite (execute_agent_by_id_present _ _ _ _ _ _ Hagent).
    rewrite (try_run_agent_returns _ _ _ _ _ _ Hrun Hdumps), finally_commit_eq.
    apply run_agent_same_store in Hrun as (_ & _ & _ & Hn & _).
    simpl in Hn. rewrite Hn.
    eexists. split; [reflexivity |]. simpl. split.
    + by rewrite lookup_insert_eq.
    + by rewrite last_snoc.
  - intros run_id run agent Hr Hagent run0 final Hrun.
    rewrite (execute_run_present _ _ _ _ _ _ _ Hr Hagent).
    rewrite (try_run_agent_returns _ _ _ _ _ _ Hrun Hdumps), finally_commit_eq.
    apply run_agent_same_store in Hrun as (_ & _ & _ & Hn & _).
    simpl in Hn. rewrite Hn.
    eexists. split; [reflexivity |]. simpl. split.
    + by rewrite lookup_insert_eq.
    + by rewrite last_snoc.
Qed.

(** X11. An agent stored with a kind the dispatcher does not know is not
    refused up front: [execute_agent_by_id] makes its record, raises
    [KeyError] with the kind, and commits the record with the status [error]
    and the logs [KeyError: ] followed by the [repr] of the kind. No plugin
    has run. *)
Theorem unknown_kind_is_recorded w (agent_id : Z) agent :
  w_agents w !! agent_id = Some agent ->
  Agent.kind agent <> "invoice_email" ->
  exists w',
    execute_agent_by_id py_repr json_dumps clock agent_id w
    = (Raise (KeyError (VStr (Agent.kind agent))), w') /\
    w_runs w' !! fresh_run_id (w_runs w)
    = Some {| Run.agent_id := Agent.id agent; Run.status := "error";
              Run.started_at := Some (clock (w_now_calls w));
              Run.finished_at := Some (clock (S (w_now_calls w)));
              Run.logs := "KeyError: " +:+ py_repr (VStr (Agent.kind agent)) |} /\
    w_calls w' = w_calls w /\ w_ext w' = w_ext w.
Proof.
  intros Hagent Hkind.
  rewrite (execute_agent_by_id_present _ _ _ _ _ _ Hagent).
  erewrite try_run_agent_raises;
    [| by apply run_agent_unknown | reflexivity].
  rewrite finally_commit_eq.
  eexists. split; [reflexivity |]. simpl.
  by rewrite lookup_insert_eq.
Qed.

(** X12. An execution is confined to its own record. [execute_agent_by_id]
    on a stored agent adds exactly one row of [runs] and changes none of
    the rows that were there; [execute_run] changes only the row of its
    run, which keeps its agent; neither changes the agents or the
    registry. *)
Theorem execution_is_confined w :
  (forall (agent_id : Z) agent,
     w_agents w !! agent_id = Some agent ->
     let w' := snd (execute_agent_by_id py_repr json_dumps clock agent_id w) in
     w_registry w' = w_registry w /\ w_agents w' = w_agents w /\
     (forall k r, w_runs w !! k = Some r -> w_runs w' !! k = Some r) /\
     size (w_runs w') = S (size (w_runs w))) /\
  (forall (run_id : Z) run agent,
     w_runs w !! run_id = Some run ->
     w_agents w !! Run.agent_id run = Some agent ->
     let w' := snd (execute_run py_repr json_dumps clock run_id w) in
     w_registry w' = w_registry w /\ w_agents w' = w_agents w /\
     (forall k, k <> run_id -> w_runs w' !! k = w_runs w !! k) /\
     (exists run', w_runs w' !! run_id = Some run' /\
                   Run.agent_id run' = Run.agent_id run) /\
     size (w_runs w') = size (w_runs w)).
Proof.
  split.
  - intros agent_id agent Hagent w'. subst w'.
    rewrite (execute_agent_by_id_present _ _ _ _ _ _ Hagent).
    destruct (finally_frame (fresh_run_id (w_runs w)) agent
                {| Run.agent_id := Agent.id agent; Run.status := "running";
                   Run.started_at := Some (clock (w_now_calls w));
                   Run.finished_at := None; Run.logs := "" |}
                (snd (session_add_flush
                        {| Run.agent_id := Agent.id agent;
                           Run.status := "running";
                           Run.started_at := Some (clock (w_now_calls w));
                           Run.finished_at := None; Run.logs := "" |}
                        (snd (now clock w)))))
      as (Hreg & Hagents & final & Hruns & _).
    simpl in *. rewrite Hreg, Hagents, Hruns.
    split; [done |]. split; [done |]. split.
    + intros k r Hk. rewrite lookup_insert_ne; [done |].
      intros <-. by rewrite fresh_run_id_fresh in Hk.
    + apply map_size_insert_None, fresh_run_id_fresh.
  - intros run_id run agent Hr Hagent w'. subst w'.
    rewrite (execute_run_present _ _ _ _ _ _ _ Hr Hagent).
    destruct (finally_frame run_id agent
                (Run.with_started_at (Some (clock (w_now_calls w)))
                   (Run.with_status "running" run))
                (session_flush run_id
                   (Run.with_started_at (Some (clock (w_now_calls w)))
                      (Run.with_status "running" run))
                   (snd (now clock w))))
      as (Hreg & Hagents & final & Hruns & Hid).
    simpl in *. rewrite Hreg, Hagents, Hruns.
    split; [done |]. split; [done |]. split; [| split].
    + intros k Hk. by rewrite lookup_insert_ne.
    + exists final. by rewrite lookup_insert_eq.
    + by apply map_size_insert_Some.
Qed.

End MoreExecutorFacts.

(** The witness of X10: the sample messages, by agent and by run. *)
Lemma success_is_recorded_witness :
  (exists w',
     execute_agent_by_id Sample.repr Sample.json_dumps Sample.clock 1
       (Sample.process (Sample.registry Sample.messages) "invoice_email")
     = (Ok (counts 3 1 1), w') /\
     w_runs w' !! 2
     = Some {| Run.agent_id := 1; Run.status := "success";
               Run.started_at := Some 1700000000;
               Run.finished_at := Some 1700000001;
               Run.logs := Sample.dumps (counts 3 1 1) |}) /\
  (exists w',
     execute_run Sample.repr Sample.json_dumps Sample.clock 1
       (Sample.process (Sample.registry Sample.messages) "invoice_email")
     = (Ok (counts 3 1 1), w') /\
     w_runs w' !! 1
     = Some {| Run.agent_id := 1; Run.status := "success";
               Run.started_at := Some 1700000000;
               Run.finished_at := Some 1700000001;
               Run.logs := Sample.dumps (counts 3 1 1) |}).
Proof.
  pose (W := Sample.process (Sample.registry Sample.messages) "invoice_email").
  assert (Hid : fresh_run_id (w_runs W) = 2) by (vm_compute; reflexivity).
  split.
  - pose (w1 := snd (session_add_flush
                       {| Run.agent_id := Agent.id (Sample.agent "invoice_email");
                          Run.status := "running";
                          Run.started_at := Some (Sample.clock (w_now_calls W));
                          Run.finished_at := None; Run.logs := "" |}
                       (snd (now Sample.clock W)))).
    pose (w2 := snd (run_agent Sample.repr "invoice_email"
                       (Agent.config (Sample.agent "invoice_email")) w1)).
    destruct (proj1 (success_is_recorded Sample.repr Sample.json_dumps
                       Sample.clock W (counts 3 1 1)
                       (Sample.dumps (counts 3 1 1)) w2 eq_refl)
                1 (Sample.agent "invoice_email"))
      as (w' & Hrun & Hrow & _).
    + vm_compute; reflexivity.
    + vm_compute; reflexivity.
    + exists w'. split; [exact Hrun |]. rewrite Hid in Hrow. exact Hrow.
  - pose (w1 := session_flush 1
                  (Run.with_started_at (Some (Sample.clock (w_now_calls W)))
                     (Run.with_status "running" Sample.queued))
                  (snd (now Sample.clock W))).
    pose (w2 := snd (run_agent Sample.repr "invoice_email"
                       (Agent.config (Sample.agent "invoice_email")) w1)).
    destruct (proj2 (success_is_recorded Sample.repr Sample.json_dumps
                       Sample.clock W (counts 3 1 1)
                       (Sample.dumps (counts 3 1 1)) w2 eq_refl)
                1 Sample.queued (Sample.agent "invoice_email"))
      as (w' & Hrun & Hrow & _).
    + vm_compute; reflexivity.
    + vm_compute; reflexivity.
    + vm_compute; reflexivity.
    + exists w'. split; [exact Hrun | exact Hrow].
Defined.

(** The witness of X11: the stored agent is of the kind [backup]. *)
Lemma unknown_kind_is_recorded_witness :
  exists w',
    execute_agent_by_id Sample.repr Sample.json_dumps Sample.clock 1
      (Sample.process (Sample.registry Sample.messages) "backup")
    = (Raise (KeyError (VStr "backup")), w') /\
    w_runs w' !! 2
    = Some {| Run.agent_id := 1; Run.status := "error";
              Run.started_at := Some 1700000000;
              Run.finished_at := Some 1700000001;
              Run.logs := "KeyError: 'backup'" |} /\
    w_calls w' = [] /\ w_ext w' = 0%nat.
Proof.
  assert (Hid : fresh_run_id
                  (w_runs (Sample.process (Sample.registry Sample.messages)
                             "backup")) = 2)
    by (vm_compute; reflexivity).
  destruct (unknown_kind_is_recorded Sample.repr Sample.json_dumps Sample.clock
              (Sample.process (Sample.registry Sample.messages) "backup")
              1 (Sample.agent "backup"))
    as (w' & Hrun & Hrow & Hcalls & Hext).
  - vm_compute; reflexivity.
  - discriminate.
  - exists w'. split; [exact Hrun |]. rewrite Hid in Hrow.
    split; [exact Hrow |]. split; [exact Hcalls | exact Hext].
Defined.

(** The witness of X12: one agent and one queued run are stored. *)
Lemma execution_is_confined_witness :
  size (w_runs (snd (execute_agent_by_id Sample.repr Sample.json_dumps
                       Sample.clock 1
                       (Sample.process (Sample.registry Sample.messages)
                          "invoice_email"))))
  = S (size (w_runs (Sample.process (Sample.registry Sample.messages)
                       "invoice_email"))) /\
  size (w_runs (snd (execute_run Sample.repr Sample.json_dumps Sample.clock 1
                       (Sample.process (Sample.registry Sample.messages)
                          "invoice_email"))))
  = size (w_runs (Sample.process (Sample.registry Sample.messages)
                    "invoice_email")).
Proof.
  split.
  - refine (proj2 (proj2 (proj2
              (proj1 (execution_is_confined Sample.repr Sample.json_dumps
                        Sample.clock
                        (Sample.process (Sample.registry Sample.messages)
                           "invoice_email"))
                 1 (Sample.agent "invoice_email") _)))).
    vm_compute; reflexivity.
  - refine (proj2 (proj2 (proj2 (proj2
              (proj2 (execution_is_confined Sample.repr Sample.json_dumps
                        Sample.clock
                        (Sample.process (Sample.registry Sample.messages)
                           "invoice_email"))
                 1 Sample.queued (Sample.agent "invoice_email") _ _))))).
    + vm_compute; reflexivity.
    + vm_compute; reflexivity.
Defined.

(** ** The scheduler: several agents, and the start of the process *)

Section MoreSchedulerFacts.
Context {Trigger : Type}.
Variable IntervalTrigger : Z -> res Trigger.
Implicit Types (self : @Sched.AgentScheduler Trigger).

Lemma timers_of_other_agent self self' (a b : Z) :
  (forall id', id' <> Sched.job_id_of a ->
     List.filter (Sched.has_id id') (Sched.timers self')
     = List.filter (Sched.has_id id') (Sched.timers self)) ->
  a <> b ->
  Sched.timers_of self' b = Sched.timers_of self b.
Proof.
  intros Hother Hne. apply Hother.
  intros Heq. apply job_id_of_inj in Heq. congruence.
Qed.

(** The loop of [load_jobs] over agents of distinct ids whose intervals
    the library makes triggers of. *)
Lemma add_jobs_spec (agents : list Agent.t) :
  forall self,
    sched_wf self ->
    List.NoDup (map Agent.id agents) ->
    Forall (fun agent =>
              is_Ok (IntervalTrigger (Agent.schedule_seconds agent)) = true)
           agents ->
    exists self',
      Sched.add_jobs IntervalTrigger self agents = (Ok tt, self') /\
      sched_wf self' /\
      Sched.running (Sched.scheduler self')
      = Sched.running (Sched.scheduler self) /\
      (forall agent, In agent agents ->
         exists trig,
           IntervalTrigger (Agent.schedule_seconds agent) = Ok trig /\
           Sched.timers_of self' (Agent.id agent)
           = [timer (Agent.id agent) trig]) /\
      (forall k, ~ In k (map Agent.id agents) ->
         Sched.timers_of self' k = Sched.timers_of self k).
Proof.
  induction agents as [|agent rest IH]; intros self Hwf Hnodup Hok; simpl.
  - exists self. split; [done |]. split; [exact Hwf |]. split; [done |].
    split; [intros agent [] | done].
  - apply List.NoDup_cons_iff in Hnodup as [Hfresh Hnodup].
    apply Forall_cons in Hok as [Hagent Hok].
    destruct (IntervalTrigger (Agent.schedule_seconds agent)) as [trig|exc]
      eqn:Htrig; [| discriminate].
    destruct (add_or_update_job_spec IntervalTrigger self (Agent.id agent)
                (Agent.schedule_seconds agent) trig Hwf Htrig)
      as (self1 & Hadd & Hone & Hother & Hwf1 & Hrun1).
    rewrite Hadd.
    destruct (IH self1 Hwf1 Hnodup Hok)
      as (self' & Hjobs & Hwf' & Hrun & Hin & Hout).
    exists self'. split; [exact Hjobs |]. split; [exact Hwf' |]. split; [| split].
    + by rewrite Hrun.
    + intros agent' [<-|Hin'].
      * exists trig. split; [exact Htrig |]. by rewrite (Hout _ Hfresh).
      * by apply Hin.
    + intros k Hk. rewrite Hout by tauto.
      apply (timers_of_other_agent self self1 (Agent.id agent) k Hother).
      tauto.
Qed.

Lemma enabled_agents_in (agents : gmap Z Agent.t) (agent : Agent.t) :
  In agent (Sched.enabled_agents agents) <->
  Agent.enabled agent = true /\ exists k, agents !! k = Some agent.
Proof.
  unfold Sched.enabled_agents. rewrite filter_In, in_map_iff. split.
  - intros [([k a] & <- & Hin) Hon]. split; [done |].
    exists k. apply elem_of_map_to_list. by apply list_elem_of_In.
  - intros [Hon [k Hk]]. split; [| done].
    exists (k, agent). split; [done |].
    apply list_elem_of_In. by apply elem_of_map_to_list.
Qed.

Lemma enabled_rows_nodup (rows : list (Z * Agent.t)) :
  NoDup rows.*1 ->
  (forall k a, In (k, a) rows -> Agent.id a = k) ->
  List.NoDup (map Agent.id (List.filter Agent.enabled (map snd rows))).
Proof.
  induction rows as [|[k a] rows IH]; intros Hnodup Hrows.
  - constructor.
  - rewrite fmap_cons in Hnodup. apply NoDup_cons in Hnodup as [Hk Hnodup].
    assert (Hrest : List.NoDup
                      (map Agent.id (List.filter Agent.enabled (map snd rows))))
      by (apply IH; [exact Hnodup | intros k' a' Hin; apply Hrows; by right]).
    cbn [map List.filter snd]. destruct (Agent.enabled a); [| exact Hrest].
    cbn [map]. constructor; [| exact Hrest].
    intros Hin. apply in_map_iff in Hin as (a' & Hid & Hin).
    apply filter_In in Hin as [Hin _].
    apply in_map_iff in Hin as ([k' a''] & Hsnd & Hin).
    cbn [snd] in Hsnd. subst a''.
    apply Hk. apply list_elem_of_fmap. exists (k', a'). split.
    + cbn [fst]. transitivity (Agent.id a'); [| apply Hrows; by right].
      rewrite Hid. symmetry. apply Hrows. by left.
    + by apply list_elem_of_In.
Qed.

Lemma enabled_agents_nodup (agents : gmap Z Agent.t) :
  keyed agents -> List.NoDup (map Agent.id (Sched.enabled_agents agents)).
Proof.
  intros Hkeyed. unfold Sched.enabled_agents. apply enabled_rows_nodup.
  - apply NoDup_fst_map_to_list.
  - intros k a Hin. apply Hkeyed. apply elem_of_map_to_list.
    by apply list_elem_of_In.
Qed.

Lemma enabled_agents_accepted (agents : gmap Z Agent.t) :
  schedulable IntervalTrigger agents ->
  Forall (fun agent =>
            is_Ok (IntervalTrigger (Agent.schedule_seconds agent)) = true)
         (Sched.enabled_agents agents).
Proof.
  intros Hok. apply List.Forall_forall. intros agent Hin.
  apply enabled_agents_in in Hin as [Hon [k Hk]].
  by destruct (Hok k agent Hk Hon).
Qed.

(** The timers after [load_jobs] on a table whose rows carry their keys
    and whose enabled agents are schedulable. *)
Lemma load_jobs_spec self (agents : gmap Z Agent.t) :
  sched_wf self ->
  keyed agents ->
  schedulable IntervalTrigger agents ->
  exists self',
    Sched.load_jobs IntervalTrigger self agents = (Ok tt, self') /\
    sched_wf self' /\
    Sched.running (Sched.scheduler self')
    = Sched.running (Sched.scheduler self) /\
    (forall k agent,
       agents !! k = Some agent -> Agent.enabled agent = true ->
       Sched.timers_of self' k = due_timers IntervalTrigger agents k /\
       length (Sched.timers_of self' k) = 1%nat) /\
    (forall k,
       (forall agent, agents !! k = Some agent -> Agent.enabled agent = false) ->
       Sched.timers_of self' k = Sched.timers_of self k).
Proof.
  intros Hwf Hkeyed Hok.
  destruct (add_jobs_spec (Sched.enabled_agents agents) self Hwf
              (enabled_agents_nodup agents Hkeyed)
              (enabled_agents_accepted agents Hok))
    as (self' & Hjobs & Hwf' & Hrun & Hin & Hout).
  exists self'. split; [exact Hjobs |]. split; [exact Hwf' |].
  split; [exact Hrun |]. split.
  - intros k agent Hk Hon.
    destruct (Hin agent (proj2 (enabled_agents_in agents agent)
                           (conj Hon (ex_intro _ k Hk))))
      as (trig & Htrig & Hone).
    rewrite (Hkeyed k agent Hk) in Hone.
    unfold due_timers. rewrite Hk, Hon, Htrig, Hone. done.
  - intros k Hoff. apply Hout. intros Hin'.
    apply in_map_iff in Hin' as (agent & Hid & Hin').
    apply enabled_agents_in in Hin' as [Hon [k' Hk']].
    rewrite (Hkeyed k' agent Hk') in Hid. subst k'.
    rewrite (Hoff agent Hk') in Hon. discriminate.
Qed.

(** X13. Agents do not share timers: the job ids of two agents differ,
    and [add_or_update_job] for one agent, whatever its interval, leaves
    the timers of every other agent as they are. The agent itself has the
    one timer of the call when the library makes a trigger of the interval,
    and no timer at all when the library refuses it, the exception of the
    library being raised. *)
Theorem other_agents_keep_their_timers self (a b seconds : Z) :
  sched_wf self ->
  a <> b ->
  Sched.job_id_of a <> Sched.job_id_of b /\
  exists r self',
    Sched.add_or_update_job IntervalTrigger self a seconds = (r, self') /\
    Sched.timers_of self' b = Sched.timers_of self b /\
    match IntervalTrigger seconds with
    | Ok trig => r = Ok tt /\ Sched.timers_of self' a = [timer a trig]
    | Raise exc => r = Raise exc /\ Sched.timers_of self' a = []
    end.
Proof.
  intros Hwf Hne. split.
  - intros Heq. by apply job_id_of_inj in Heq.
  - destruct (IntervalTrigger seconds) as [trig|exc] eqn:Htrig.
    + destruct (add_or_update_job_spec IntervalTrigger self a seconds trig
                  Hwf Htrig) as (self' & Hadd & Hone & Hother & _).
      exists (Ok tt), self'. split; [exact Hadd |].
      split; [by eapply timers_of_other_agent | done].
    + destruct (add_or_update_job_refused IntervalTrigger self a seconds exc
                  Hwf Htrig) as (self' & Hadd & Hnone & Hother & _).
      exists (Raise exc), self'. split; [exact Hadd |].
      split; [by eapply timers_of_other_agent | done].
Qed.

(** X14. [load_jobs], on a scheduler in order and a table whose rows carry
    their keys and whose enabled agents have positive intervals that the
    library makes triggers of, raises nothing and leaves every enabled
    agent exactly one timer, with the trigger of its [schedule_seconds].
    It does not take timers away: an id without an enabled agent keeps the
    timers it had. *)
Theorem load_jobs_installs self (agents : gmap Z Agent.t) :
  sched_wf self ->
  keyed agents ->
  schedulable IntervalTrigger agents ->
  exists self',
    Sched.load_jobs IntervalTrigger self agents = (Ok tt, self') /\
    sched_wf self' /\
    (forall k agent,
       agents !! k = Some agent -> Agent.enabled agent = true ->
       exists trig,
         IntervalTrigger (Agent.schedule_seconds agent) = Ok trig /\
         Sched.timers_of self' k = [timer k trig]) /\
    (forall k,
       (forall agent, agents !! k = Some agent -> Agent.enabled agent = false) ->
       Sched.timers_of self' k = Sched.timers_of self k).
Proof.
  intros Hwf Hkeyed Hok.
  destruct (load_jobs_spec self agents Hwf Hkeyed Hok)
    as (self' & Hload & Hwf' & _ & Hon & Hoff).
  exists self'. split; [exact Hload |]. split; [exact Hwf' |].
  split; [| exact Hoff].
  intros k agent Hk Hen. destruct (Hon k agent Hk Hen) as [Hdue _].
  destruct (Hok k agent Hk Hen) as [_ Hacc].
  destruct (IntervalTrigger (Agent.schedule_seconds agent)) as [trig|exc]
    eqn:Htrig; [| discriminate].
  exists trig. split; [done |].
  rewrite Hdue. unfold due_timers. by rewrite Hk, Hen, Htrig.
Qed.

(** X15. The start of the process, [load_jobs] on the new scheduler and
    then [start], over a table whose rows carry their keys and whose
    enabled agents have positive intervals that the library makes triggers
    of: nothing is raised, the scheduler runs, and it holds exactly one
    timer for each enabled agent of the table, with the trigger of its
    interval, and none for a disabled agent or for an id that is not
    stored. *)
Theorem startup_timers (agents : gmap Z Agent.t) :
  keyed agents ->
  schedulable IntervalTrigger agents ->
  exists self1 self2,
    Sched.load_jobs IntervalTrigger Sched.AgentScheduler_init agents
    = (Ok tt, self1) /\
    Sched.start self1 = (Ok tt, self2) /\
    Sched.running (Sched.scheduler self2) = true /\
    (forall k, Sched.timers_of self2 k = due_timers IntervalTrigger agents k) /\
    (forall k agent,
       agents !! k = Some agent -> Agent.enabled agent = true ->
       length (Sched.timers_of self2 k) = 1%nat).
Proof.
  intros Hkeyed Hok.
  destruct (load_jobs_spec Sched.AgentScheduler_init agents sched_wf_init
              Hkeyed Hok) as (self1 & Hload & Hwf1 & Hrun & Hon & Hoff).
  destruct (start_spec self1 Hwf1 Hrun)
    as (self2 & Hstart & Hrunning & Htimers & _).
  exists self1, self2. split; [exact Hload |]. split; [exact Hstart |].
  split; [exact Hrunning |].
  assert (Hsame : forall k, Sched.timers_of self2 k = Sched.timers_of self1 k)
    by (intros k; unfold Sched.timers_of; by rewrite Htimers).
  split.
  - intros k. rewrite Hsame. unfold due_timers.
    destruct (agents !! k) as [agent|] eqn:Hk.
    + destruct (Agent.enabled agent) eqn:Hen.
      * destruct (Hon k agent Hk Hen) as [Hdue _].
        rewrite Hdue. unfold due_timers. by rewrite Hk, Hen.
      * rewrite Hoff; [done |]. intros agent' Hk'. congruence.
    + rewrite Hoff; [done |]. intros agent' Hk'. congruence.
  - intros k agent Hk Hen. rewrite Hsame. by destruct (Hon k agent Hk Hen).
Qed.

End MoreSchedulerFacts.

(** The rows of the sample table carry their keys. *)
Lemma sample_agents_keyed : keyed Sample.agents.
Proof.
  intros k agent H. unfold Sample.agents in H.
  apply lookup_insert_Some in H as [[<- <-]|[_ H]]; [done |].
  apply lookup_insert_Some in H as [[<- <-]|[_ H]]; [done |].
  by apply lookup_singleton_Some in H as [<- <-].
Qed.

(** The enabled agents of the sample table are schedulable. *)
Lemma sample_agents_schedulable :
  schedulable Sample.IntervalTrigger Sample.agents.
Proof.
  intros k agent H Hon. unfold Sample.agents in H.
  apply lookup_insert_Some in H as [[<- <-]|[_ H]];
    [split; [done | vm_compute; reflexivity] |].
  apply lookup_insert_Some in H as [[<- <-]|[_ H]]; [discriminate |].
  apply lookup_singleton_Some in H as [<- <-].
  split; [done | vm_compute; reflexivity].
Qed.

(** The witness of X13: agents 5 and 6 on a new scheduler. *)
Lemma other_agents_keep_their_timers_witness :
  Sched.job_id_of 5 <> Sched.job_id_of 6 /\
  exists r self',
    Sched.add_or_update_job Sample.IntervalTrigger Sched.AgentScheduler_init 5 60
    = (r, self') /\
    Sched.timers_of self' 6 = Sched.timers_of Sched.AgentScheduler_init 6 /\
    r = Ok tt /\ Sched.timers_of self' 5 = [timer 5 60].
Proof.
  apply (other_agents_keep_their_timers Sample.IntervalTrigger
           Sched.AgentScheduler_init 5 6 60).
  - split; [intros id; simpl; lia | reflexivity].
  - lia.
Defined.

(** The witness of X14: agents 1 and 3 are enabled, agent 2 is not. *)
Lemma load_jobs_installs_witness :
  exists self',
    Sched.load_jobs Sample.IntervalTrigger Sched.AgentScheduler_init Sample.agents
    = (Ok tt, self') /\
    Sched.timers_of self' 1 = [timer 1 60] /\
    Sched.timers_of self' 3 = [timer 3 30] /\
    Sched.timers_of self' 2 = Sched.timers_of Sched.AgentScheduler_init 2.
Proof.
  destruct (load_jobs_installs Sample.IntervalTrigger Sched.AgentScheduler_init
              Sample.agents)
    as (self' & Hload & _ & Hon & Hoff).
  - split; [intros id; simpl; lia | reflexivity].
  - exact sample_agents_keyed.
  - exact sample_agents_schedulable.
  - exists self'. split; [exact Hload |]. split; [| split].
    + destruct (Hon 1 (Sample.scheduled 1 60 true)) as (trig & Htrig & Hone);
        [vm_compute; reflexivity | reflexivity |].
      vm_compute in Htrig. injection Htrig as <-. exact Hone.
    + destruct (Hon 3 (Sample.scheduled 3 30 true)) as (trig & Htrig & Hone);
        [vm_compute; reflexivity | reflexivity |].
      vm_compute in Htrig. injection Htrig as <-. exact Hone.
    + apply Hoff. intros agent H.
      assert (Hrow : Sample.agents !! 2 = Some (Sample.scheduled 2 300 false))
        by (vm_compute; reflexivity).
      rewrite Hrow in H. by injection H as <-.
Defined.

(** The witness of X15: the same table at the start of the process. *)
Lemma startup_timers_witness :
  exists self1 self2,
    Sched.load_jobs Sample.IntervalTrigger Sched.AgentScheduler_init Sample.agents
    = (Ok tt, self1) /\
    Sched.start self1 = (Ok tt, self2) /\
    Sched.running (Sched.scheduler self2) = true /\
    (forall k, Sched.timers_of self2 k
               = due_timers Sample.IntervalTrigger Sample.agents k) /\
    (forall k agent,
       Sample.agents !! k = Some agent -> Agent.enabled agent = true ->
       length (Sched.timers_of self2 k) = 1%nat).
Proof.
  apply (startup_timers Sample.IntervalTrigger Sample.agents).
  - exact sample_agents_keyed.
  - exact sample_agents_schedulable.
Defined.
